(** * ManagerMarcela: the product router and its image life cycle

    A shallow embedding of the product router, in the variant that removes
    the previous Cloudinary asset on update and on delete and in the plain
    variant of [backend/src/routes/product.routes.ts], with the
    collaborators they call: the persistence module [../config/database]
    and the Cloudinary media store. *)

From Stdlib Require Import Ascii String.
From stdpp Require Import gmap strings list fin_maps infinite pretty.

(** ** JavaScript strings

    Strings are sequences of one-byte characters; the separators the router
    splits on, ['/'] and ['.'], are ASCII. *)

Module Js.

(** [s.split(sep)]: the segments of [s] between occurrences of [sep]. The
    result always has at least one element ([''.split('/')] is [['']]). *)
Fixpoint split (sep : ascii) (s : string) : list string :=
  match s with
  | EmptyString => [EmptyString]
  | String c s' =>
      if Ascii.eqb c sep then EmptyString :: split sep s'
      else match split sep s' with
           | [] => [String c EmptyString]
           | seg :: rest => String c seg :: rest
           end
  end.

(** Does the character occur in the string? *)
Fixpoint occurs (c : ascii) (s : string) : bool :=
  match s with
  | EmptyString => false
  | String d s' => Ascii.eqb d c || occurs c s'
  end.

(** Truthiness of a possibly undefined string: [undefined] and [''] are
    falsy, every other string is truthy. *)
Definition truthy (s : option string) : bool :=
  match s with
  | Some EmptyString => false
  | Some (String _ _) => true
  | None => false
  end.
Arguments truthy : simpl never.

End Js.

(** ** The media store adapter *)

Definition slash : ascii := "/"%char.
Definition dot : ascii := "."%char.

(** [folder] of the [CloudinaryStorage] parameters. *)
Definition folder : string := "store-products".

(** [allowed_formats] of the [CloudinaryStorage] parameters. *)
Definition allowed_formats : list string := ["jpg"; "png"].

(** [getPublicIdFromUrl]: the last ['/']-separated segment of the URL, cut
    at its first ['.'], behind the literal prefix. [split] never returns an empty
    array, so neither index is ever out of range and the defaults of
    [List.last] and [List.hd] are never used ([split_not_nil] below). *)
Definition getPublicIdFromUrl (url : string) : string :=
  let splitUrl := Js.split slash url in
  let filename := List.last splitUrl EmptyString in
  let publicId := "store-products/" +:+ List.hd EmptyString (Js.split dot filename) in
  publicId.

(** The derivation in the words of the specification: the final path
    segment, without its file extension (what follows its last ['.']),
    under the folder. *)
Fixpoint strip_extension (s : string) : string :=
  match s with
  | EmptyString => EmptyString
  | String c s' =>
      if Js.occurs dot s then
        if Ascii.eqb c dot && negb (Js.occurs dot s') then EmptyString
        else String c (strip_extension s')
      else s
  end.

Definition deriveIdentifier (url : string) : string :=
  folder +:+ "/" +:+ strip_extension (List.last (Js.split slash url) EmptyString).

(** What the media store hands back for an upload. *)
Record RemoteAsset := { url : string; identifier : string }.

(** The asset the store issues for a file it stored under [folder] with the
    name [name] and the format [fmt], delivered from [delivery]: its public
    id is [folder/name], its URL is [delivery/folder/name.fmt]. *)
Definition issued_asset (delivery name fmt : string) : RemoteAsset :=
  {| url := delivery +:+ "/" +:+ folder +:+ "/" +:+ name +:+ "." +:+ fmt;
     identifier := folder +:+ "/" +:+ name |}.

(** ** The product documents *)

(** [Number(price)]: the handlers convert the [price] form field and store
    the result without ever inspecting it, so the number is kept as the
    conversion applied to the raw field. *)
Inductive JsNumber := Number (raw : option string).

(** [Product], also used as [Partial<Product>]: a field that is [None] is
    [undefined]. *)
Record Product := {
  name : option string;
  description : option string;
  price : option JsNumber;
  imageUrl : option string
}.

(** A stored document: [_id.toString()] and the product. *)
Definition Doc : Type := string * Product.

(** ** Requests and responses *)

(** The file part of a multipart form, as the media store sees it. *)
Record File := { originalname : string; file_format : string }.

(** [req.file] as [multer-storage-cloudinary] fills it in: [path] is the
    URL of the uploaded asset, [filename] its public id. *)
Record MulterFile := { path : string; filename : string }.

Record Request := {
  params_id : string;
  body_name : option string;
  body_description : option string;
  body_price : option string;
  image : option File
}.

(** The result object of a persistence write. *)
Inductive WriteResult := Acknowledged.

Inductive Body :=
| JsonProducts (products : list Doc)
| JsonMessage (message : string)
| JsonProduct (message : string) (product : Doc)
| JsonResult (message : string) (result : WriteResult)
| ErrorPage.

Record Response := { status : nat; json : Body }.

(** ** Collaborator calls, worlds and the handler monad *)

(** Every call a handler or the upload middleware issues to a collaborator. *)
Inductive Event :=
| GetProducts
| InsertProduct (p : Product)
| UpdateProduct (id : string) (data : Product)
| DeleteProduct (id : string)
| MediaUpload (f : File)
| MediaDestroy (publicId : string).

(** What the outside world decides during one request: which collaborator
    calls reject, and where and under which name the media store keeps an
    uploaded file. *)
Record Env := {
  rejects : Event -> bool;
  delivery : string;
  asset_name : File -> string
}.

(** The collection, the identifiers the store has generated so far, and the
    calls issued so far (latest last). *)
Record World := {
  db : gmap string Product;
  issued : gset string;
  trace : list Event
}.

Inductive outcome (A : Type) :=
| Returned (a : A)
| Thrown.
Arguments Returned {A} a.
Arguments Thrown {A}.

Definition M (A : Type) : Type := World -> outcome A * World.

Definition ret {A} (a : A) : M A := fun w => (Returned a, w).

Definition bind {A B} (m : M A) (k : A -> M B) : M B :=
  fun w => match m w with
           | (Returned a, w') => k a w'
           | (Thrown, w') => (Thrown, w')
           end.

Definition throw {A} : M A := fun w => (Thrown, w).

(** [try { body } catch (error) { handler }] *)
Definition try_catch {A} (body handler : M A) : M A :=
  fun w => match body w with
           | (Returned a, w') => (Returned a, w')
           | (Thrown, w') => handler w'
           end.

Notation "'await' x <- m ; k" := (bind m (fun x => k))
  (at level 10, x name, m at level 100, k at level 200).
Notation "'exec' m ; k" := (bind m (fun _ => k))
  (at level 10, m at level 100, k at level 200).

Definition log (e : Event) (w : World) : World :=
  {| db := db w; issued := issued w; trace := trace w ++ [e] |}.

(** Issue a call: it is recorded, and rejects when the environment says so. *)
Definition call (env : Env) (e : Event) : M unit :=
  fun w => if rejects env e then (Thrown, log e w) else (Returned tt, log e w).

Definition read_db : M (gmap string Product) := fun w => (Returned (db w), w).

Definition write_db (d : gmap string Product) : M unit :=
  fun w => (Returned tt, {| db := d; issued := issued w; trace := trace w |}).

(** ** The persistence collaborator ([../config/database]) *)

(** Modelled from the spec: [getProducts] of the absent module
    [config/database], "list-all": all products in store-native order. *)
Definition getProducts (env : Env) : M (list Doc) :=
  exec call env GetProducts ;
  await d <- read_db ;
  ret (map_to_list d).

(** Modelled from the spec: [insertProduct] of the absent module
    [config/database], "insert" into a collection "keyed by a generated
    identifier", the identifier being "store-generated" and "unique"; it
    "returns the stored Product (including generated id)". *)
Definition insertProduct (env : Env) (p : Product) : M Doc :=
  exec call env (InsertProduct p) ;
  fun w =>
    let id := fresh (issued w) in
    (Returned (id, p),
     {| db := <[id := p]> (db w); issued := {[id]} ∪ issued w; trace := trace w |}).

(** The fields that [data] supplies replace those of [p]. *)
Definition merge_fields (data p : Product) : Product :=
  {| name := match name data with Some n => Some n | None => name p end;
     description :=
       match description data with Some d => Some d | None => description p end;
     price := match price data with Some x => Some x | None => price p end;
     imageUrl := match imageUrl data with Some u => Some u | None => imageUrl p end |}.

(** Modelled from the spec: [updateProduct] of the absent module
    [config/database], "update-by-id": the supplied fields are updated, "if
    no new image supplied, only textual/numeric fields are updated; previous
    image is retained untouched". *)
Definition updateProduct (env : Env) (id : string) (data : Product) : M WriteResult :=
  exec call env (UpdateProduct id data) ;
  await d <- read_db ;
  exec write_db (alter (merge_fields data) id d) ;
  ret Acknowledged.

(** Modelled from the spec: [deleteProduct] of the absent module
    [config/database], "delete-by-id"; "returns confirmation of removal". *)
Definition deleteProduct (env : Env) (id : string) : M WriteResult :=
  exec call env (DeleteProduct id) ;
  await d <- read_db ;
  exec write_db (delete id d) ;
  ret Acknowledged.

(** ** The media store *)

Definition is_allowed (fmt : string) : bool :=
  bool_decide (fmt ∈ allowed_formats).

(** The upload that [CloudinaryStorage] performs for a file part: the store
    refuses a format outside [allowed_formats], otherwise keeps the file
    under [folder] and answers with the asset. *)
Definition upload_asset (env : Env) (f : File) : M RemoteAsset :=
  exec call env (MediaUpload f) ;
  if is_allowed (file_format f)
  then ret (issued_asset (delivery env) (asset_name env f) (file_format f))
  else throw.

(** [cloudinary.uploader.destroy(publicId)]; its result is never read. *)
Definition destroy (env : Env) (publicId : string) : M unit :=
  call env (MediaDestroy publicId).

(** [upload.single('image')]: without a file part [req.file] stays
    undefined and the media store is not contacted; with one, the file is
    uploaded before the handler runs. *)
Definition upload_single (env : Env) (req : Request) : M (option MulterFile) :=
  match image req with
  | None => ret None
  | Some f =>
      await a <- upload_asset env f ;
      ret (Some {| path := url a; filename := identifier a |})
  end.

(** ** The handlers of [productRouter] *)

Definition respond (code : nat) (b : Body) : M Response :=
  ret {| status := code; json := b |}.

(** [products.find(p => p._id.toString() === id)] *)
Definition find_by_id (id : string) (products : list Doc) : option Doc :=
  List.find (fun p => String.eqb (fst p) id) products.

(** [productRouter.get("/")] *)
Definition get_handler (env : Env) : M Response :=
  try_catch
    (await products <- getProducts env ;
     respond 200 (JsonProducts products))
    (respond 500 (JsonMessage "Error fetching products")).

(** [productRouter.post("/")] *)
Definition post_handler (env : Env) (req : Request) (file : option MulterFile)
  : M Response :=
  try_catch
    (match file with
     | None => respond 400 (JsonMessage "Image is required")
     | Some f =>
         let newProduct :=
           {| name := body_name req;
              description := body_description req;
              price := Some (Number (body_price req));
              imageUrl := Some (path f) |} in
         await result <- insertProduct env newProduct ;
         respond 201 (JsonProduct "Product created" result)
     end)
    (respond 500 (JsonMessage "Error creating product")).

(** [productRouter.put("/:id")]; [existingProduct?.imageUrl] is the bind of
    the option. *)
Definition put_handler (env : Env) (req : Request) (file : option MulterFile)
  : M Response :=
  try_catch
    (let id := params_id req in
     await existingProduct <-
       (await products <- getProducts env ; ret (find_by_id id products)) ;
     let updateData :=
       {| name := body_name req;
          description := body_description req;
          price := Some (Number (body_price req));
          imageUrl := None |} in
     await updateData <-
       match file with
       | Some f =>
           exec (match existingProduct ≫= (fun d => imageUrl (snd d)) with
                 | Some u =>
                     if Js.truthy (Some u)
                     then destroy env (getPublicIdFromUrl u)
                     else ret tt
                 | None => ret tt
                 end) ;
           ret {| name := name updateData;
                  description := description updateData;
                  price := price updateData;
                  imageUrl := Some (path f) |}
       | None => ret updateData
       end ;
     await result <- updateProduct env id updateData ;
     respond 200 (JsonResult "Product updated" result))
    (respond 500 (JsonMessage "Error updating product")).

(** [productRouter.delete("/:id")] *)
Definition delete_handler (env : Env) (req : Request) : M Response :=
  try_catch
    (let id := params_id req in
     await product <-
       (await products <- getProducts env ; ret (find_by_id id products)) ;
     match product with
     | None => respond 404 (JsonMessage "Product not found")
     | Some (_, p) =>
         exec (match imageUrl p with
               | Some u =>
                   if Js.truthy (Some u)
                   then destroy env (getPublicIdFromUrl u)
                   else ret tt
               | None => ret tt
               end) ;
         await result <- deleteProduct env id ;
         respond 200 (JsonResult "Product and associated image deleted" result)
     end)
    (respond 500 (JsonMessage "Error deleting product")).

(** ** The routes *)

(** A route runs its middleware, then its handler; an error that escapes
    either reaches the framework's default error handler. *)
Definition express {A} (middleware : M A) (handler : A -> M Response)
  : World -> Response * World :=
  fun w =>
    match (await a <- middleware ; handler a) w with
    | (Returned r, w') => (r, w')
    | (Thrown, w') => ({| status := 500; json := ErrorPage |}, w')
    end.

Inductive HttpRequest :=
| GET
| POST (req : Request)
| PUT (req : Request)
| DELETE (req : Request).

Definition serve (env : Env) (h : HttpRequest) : World -> Response * World :=
  match h with
  | GET => express (ret tt) (fun _ => get_handler env)
  | POST req => express (upload_single env req) (post_handler env req)
  | PUT req => express (upload_single env req) (put_handler env req)
  | DELETE req => express (ret tt) (fun _ => delete_handler env req)
  end.

(** The catalog operations, as the routes serve them. *)
Module Catalog.
Definition list_all (env : Env) := serve env GET.
Definition create (env : Env) (req : Request) := serve env (POST req).
Definition update (env : Env) (req : Request) := serve env (PUT req).
Definition delete (env : Env) (req : Request) := serve env (DELETE req).
End Catalog.

(** ** The plain router of [backend/src/routes/product.routes.ts]

    Its [get] and [post] handlers are the ones above; its [put] and
    [delete] handlers neither look the product up nor touch the media
    store. *)
Module Basic.

(** [productRouter.put("/:id")] *)
Definition put_handler (env : Env) (req : Request) (file : option MulterFile)
  : M Response :=
  try_catch
    (let id := params_id req in
     let updateData :=
       {| name := body_name req;
          description := body_description req;
          price := Some (Number (body_price req));
          imageUrl := None |} in
     let updateData :=
       match file with
       | Some f =>
           {| name := name updateData;
              description := description updateData;
              price := price updateData;
              imageUrl := Some (path f) |}
       | None => updateData
       end in
     await result <- updateProduct env id updateData ;
     respond 200 (JsonResult "Product updated" result))
    (respond 500 (JsonMessage "Error updating product")).

(** [productRouter.delete("/:id")] *)
Definition delete_handler (env : Env) (req : Request) : M Response :=
  try_catch
    (let id := params_id req in
     await result <- deleteProduct env id ;
     respond 200 (JsonResult "Product deleted" result))
    (respond 500 (JsonMessage "Error deleting product")).

Definition serve (env : Env) (h : HttpRequest) : World -> Response * World :=
  match h with
  | GET => express (ret tt) (fun _ => get_handler env)
  | POST req => express (upload_single env req) (post_handler env req)
  | PUT req => express (upload_single env req) (put_handler env req)
  | DELETE req => express (ret tt) (fun _ => delete_handler env req)
  end.

Definition create (env : Env) (req : Request) := serve env (POST req).
Definition update (env : Env) (req : Request) := serve env (PUT req).
Definition delete (env : Env) (req : Request) := serve env (DELETE req).

End Basic.

(** A run of the service: each request meets its own environment. *)
Fixpoint serve_all (rs : list (Env * HttpRequest)) (w : World) : World :=
  match rs with
  | [] => w
  | (env, h) :: rs' => serve_all rs' (snd (serve env h w))
  end.

(** ** Observations on worlds and traces *)

Definition is_media (e : Event) : bool :=
  match e with
  | MediaUpload _ | MediaDestroy _ => true
  | _ => false
  end.

Definition is_destroy (e : Event) : bool :=
  match e with
  | MediaDestroy _ => true
  | _ => false
  end.

Definition is_write (e : Event) : bool :=
  match e with
  | InsertProduct _ | UpdateProduct _ _ | DeleteProduct _ => true
  | _ => false
  end.

Definition is_upload (e : Event) : bool :=
  match e with
  | MediaUpload _ => true
  | _ => false
  end.

(** The calls a step added to the trace. *)
Definition issued_by (w w' : World) : list Event :=
  drop (length (trace w)) (trace w').

(** The identifiers of the collection are among the generated ones. *)
Definition well_formed (w : World) : Prop := dom (db w) ⊆ issued w.

(** Every stored product has a non-empty [imageUrl]. *)
Definition image_invariant (w : World) : Prop :=
  forall id p, db w !! id = Some p -> Js.truthy (imageUrl p) = true.

(** The textual part of the data-model invariant on one product: a
    non-empty name, description and [imageUrl] (the price is kept as the
    conversion of the raw field, so its sign is not observed). *)
Definition valid_product (p : Product) : Prop :=
  Js.truthy (name p) = true /\ Js.truthy (description p) = true /\
  Js.truthy (imageUrl p) = true.

(** The products a [Catalog.list_all] response carries. *)
Definition listed (r : Response) : list Doc :=
  match json r with
  | JsonProducts ps => ps
  | _ => []
  end.

(** The update document that [put_handler] builds from a request whose
    [req.file], if any, has the given [path]. *)
Definition submitted (req : Request) (img : option string) : Product :=
  {| name := body_name req;
     description := body_description req;
     price := Some (Number (body_price req));
     imageUrl := img |}.

(** The URL of the asset that the media store issues for the image part of
    a request, if it has one. *)
Definition uploaded_url (env : Env) (req : Request) : option string :=
  (fun f => url (issued_asset (delivery env) (asset_name env f) (file_format f)))
    <$> image req.

(** The identifier was generated once and its product is gone. *)
Definition retired (id : string) (w : World) : Prop :=
  id ∈ issued w /\ db w !! id = None /\ well_formed w.

(** A handler keeps [P], whether it returns or throws, and returns only
    values that satisfy [Q]. *)
Definition hoare {A} (P : World -> Prop) (m : M A) (Q : A -> Prop) : Prop :=
  forall w, P w ->
    match m w with
    | (Returned a, w') => Q a /\ P w'
    | (Thrown, w') => P w'
    end.

(** [P] does not look at the trace. *)
Definition trace_blind (P : World -> Prop) : Prop :=
  forall e w, P w -> P (log e w).

(** ** The entry point [backend/src/index.ts]: the listening port *)

Module JsGlobal.

(** White space and line terminators among the one-byte code units: TAB,
    LF, VT, FF, CR, SP and NBSP. *)
Definition is_space (c : ascii) : bool :=
  bool_decide (N_of_ascii c ∈ [9; 10; 11; 12; 13; 32; 160]%N).

Fixpoint trim_start (s : string) : string :=
  match s with
  | EmptyString => EmptyString
  | String c s' => if is_space c then trim_start s' else s
  end.

(** The value of a code unit as a digit: ['0'..'9'], then the letters of
    either case from 10 on; none for a value outside the radix. *)
Definition digit_value (radix : N) (c : ascii) : option N :=
  let n := N_of_ascii c in
  let v :=
    if bool_decide (48 <= n <= 57)%N then Some (n - 48)%N
    else if bool_decide (97 <= n <= 122)%N then Some (n - 87)%N
    else if bool_decide (65 <= n <= 90)%N then Some (n - 55)%N
    else None in
  match v with
  | Some d => if bool_decide (d < radix)%N then Some d else None
  | None => None
  end.

(** The integer that the longest prefix of radix digits writes; none when
    that prefix is empty. *)
Fixpoint digits (radix : N) (acc : option N) (s : string) : option N :=
  match s with
  | EmptyString => acc
  | String c s' =>
      match digit_value radix c with
      | Some d => digits radix (Some (default 0 acc * radix + d)%N) s'
      | None => acc
      end
  end.

(** [parseInt(string)] without a radix: leading white space is skipped, a
    sign is read, a prefix [0x] or [0X] selects radix 16 (10 otherwise),
    and the longest prefix of digits is the value; [None] is [NaN], and
    [-0] is not told from [0]. The integer is the number that [parseInt]
    returns as long as the digits write at most 2^53; beyond that the
    result is a double that the integer only stands for (the nearest one,
    [Infinity] in the end), so nothing but its being neither [NaN] nor 0
    is read off it. *)
Definition parseInt (string : string) : option Z :=
  let inputString := trim_start string in
  let '(sign, rest) :=
    match inputString with
    | String "-"%char r => ((-1)%Z, r)
    | String "+"%char r => (1%Z, r)
    | _ => (1%Z, inputString)
    end in
  let '(R, rest) :=
    match rest with
    | String "0"%char (String "x"%char r)
    | String "0"%char (String "X"%char r) => (16%N, r)
    | _ => (10%N, rest)
    end in
  match digits R None rest with
  | Some n => Some (sign * Z.of_N n)%Z
  | None => None
  end.

End JsGlobal.

Module Index.

(** [parseInt(`${process.env.PORT}`) || 3000]: an unset variable prints as
    [undefined]; [NaN] and [0] are falsy. *)
Definition PORT (env_PORT : option string) : Z :=
  match JsGlobal.parseInt (default "undefined" env_PORT) with
  | Some z => if bool_decide (z = 0%Z) then 3000%Z else z
  | None => 3000%Z
  end.

End Index.

(** The service before its first request. *)
Definition empty_world : World := {| db := ∅; issued := ∅; trace := [] |}.

(** ** A sample shop *)

Module Sample.

Definition mug_url : string :=
  "https://res.cloudinary.com/demo/image/upload/v1/store-products/mug1.jpg".

Definition mug : Product :=
  {| name := Some "Mug";
     description := Some "Ceramic mug";
     price := Some (Number (Some "9.99"));
     imageUrl := Some mug_url |}.

(** A product that was stored without an image. *)
Definition bare : Product :=
  {| name := Some "Bowl";
     description := Some "Wooden bowl";
     price := Some (Number (Some "4.50"));
     imageUrl := None |}.

Definition shop : World :=
  {| db := {[ "p1" := mug ]}; issued := {[ "p1" ]}; trace := [] |}.

Definition bare_shop : World :=
  {| db := {[ "p2" := bare ]}; issued := {[ "p2" ]}; trace := [] |}.

Definition photo : File := {| originalname := "mug2.png"; file_format := "png" |}.

(** Every collaborator answers. *)
Definition up : Env :=
  {| rejects := fun _ => false;
     delivery := "https://res.cloudinary.com/demo/image/upload/v2";
     asset_name := fun _ => "mug2" |}.

(** The media store rejects every deletion; everything else answers. *)
Definition destroy_down : Env :=
  {| rejects := is_destroy;
     delivery := "https://res.cloudinary.com/demo/image/upload/v2";
     asset_name := fun _ => "mug2" |}.

Definition request (id : string) (n d pr : option string) (img : option File)
  : Request :=
  {| params_id := id; body_name := n; body_description := d;
     body_price := pr; image := img |}.

(** The form of the mug at a new price, without and with a new photo. *)
Definition reprice (id : string) : Request :=
  request id (Some "Mug") (Some "Ceramic mug") (Some "12.50") None.

Definition rephoto (id : string) : Request :=
  request id (Some "Mug") (Some "Ceramic mug") (Some "12.50") (Some photo).

(** A form with empty texts and no price, and a photo. *)
Definition blank : Request := request "" (Some "") (Some "") None (Some photo).

End Sample.

(** ** The client: the state of the [App] component and its handlers

    A handler runs from the state of the render it was attached in to the
    state after its last update; the answers of the network are given to
    it, and no other event is taken to happen while a request is in
    flight. The bodies the client reads are JSON objects, or do not
    parse. *)

Module Client.

(** What the handlers ask of JavaScript's numbers: [0], [price <= 0],
    [parseFloat] and [toString]. *)
Class Numbers (num : Type) := {
  zero : num;
  le_zero : num -> bool;
  parseFloat : string -> num;
  toString : num -> string
}.

(** [String.prototype.trim] *)
Fixpoint trim_end (s : string) : string :=
  match s with
  | EmptyString => EmptyString
  | String c s' =>
      match trim_end s' with
      | EmptyString => if JsGlobal.is_space c then EmptyString
                       else String c EmptyString
      | r => String c r
      end
  end.

Definition trim (s : string) : string := trim_end (JsGlobal.trim_start s).

(** Truthiness of a string. *)
Definition nonempty (s : string) : bool :=
  match s with
  | EmptyString => false
  | String _ _ => true
  end.

(** A [File] of the browser. *)
Record BrowserFile := { file_name : string; size : N; type : string }.

(** [interface Product], also the type of the form data. *)
Record Product (num : Type) := {
  _id : option string;
  name : string;
  description : string;
  imageUrl : string;
  price : num;
  image : option BrowserFile
}.
Arguments _id {num} _.
Arguments name {num} _.
Arguments description {num} _.
Arguments imageUrl {num} _.
Arguments price {num} _.
Arguments image {num} _.

Inductive Severity := success | error.

Record Snackbar := { open : bool; message : string; severity : Severity }.

Record State (num : Type) := {
  products : list (Product num);
  isLoading : bool;
  openDialog : bool;
  isEditing : bool;
  currentProduct : option (Product num);
  snackbar : Snackbar;
  formData : Product num
}.
Arguments products {num} _.
Arguments isLoading {num} _.
Arguments openDialog {num} _.
Arguments isEditing {num} _.
Arguments currentProduct {num} _.
Arguments snackbar {num} _.
Arguments formData {num} _.

(** The network, as the handlers see it. *)
Inductive Method := GET | POST | PUT | DELETE.

Record FormBody := {
  form_name : string;
  form_description : string;
  form_price : string;
  form_image : option BrowserFile
}.

Record HttpCall := { method : Method; target : string; body : option FormBody }.

(** A body that does not parse, or an object with its [message] and its
    [products], if it has them. *)
Inductive Json (num : Type) :=
| Unparsable (err : string)
| Object (msg : option string) (ps : option (list (Product num))).
Arguments Unparsable {num} err.
Arguments Object {num} msg ps.

(** [fetch] rejects, with an [Error] and its message or with something
    else, or resolves with a response. *)
Inductive FetchResult (num : Type) :=
| Rejected (err : option string)
| Response (status : N) (json : Json num).
Arguments Rejected {num} err.
Arguments Response {num} status json.

(** [response.ok] *)
Definition ok (status : N) : bool := bool_decide (200 <= status <= 299)%N.

Definition API_BASE_URL : string := "http://127.0.0.1:8080".

Section Handlers.
Context {num : Type} `{Numbers num}.

Definition initialFormData : Product num :=
  {| _id := None; name := ""; description := ""; imageUrl := "";
     price := zero; image := None |}.

(** The state of the first render. *)
Definition initialState : State num :=
  {| products := []; isLoading := true; openDialog := false;
     isEditing := false; currentProduct := None;
     snackbar := {| open := false; message := ""; severity := success |};
     formData := initialFormData |}.

Definition setProducts (ps : list (Product num)) (st : State num) : State num :=
  {| products := ps; isLoading := isLoading st; openDialog := openDialog st;
     isEditing := isEditing st; currentProduct := currentProduct st;
     snackbar := snackbar st; formData := formData st |}.

Definition setIsLoading (b : bool) (st : State num) : State num :=
  {| products := products st; isLoading := b; openDialog := openDialog st;
     isEditing := isEditing st; currentProduct := currentProduct st;
     snackbar := snackbar st; formData := formData st |}.

Definition setOpenDialog (b : bool) (st : State num) : State num :=
  {| products := products st; isLoading := isLoading st; openDialog := b;
     isEditing := isEditing st; currentProduct := currentProduct st;
     snackbar := snackbar st; formData := formData st |}.

Definition setIsEditing (b : bool) (st : State num) : State num :=
  {| products := products st; isLoading := isLoading st;
     openDialog := openDialog st; isEditing := b;
     currentProduct := currentProduct st;
     snackbar := snackbar st; formData := formData st |}.

Definition setCurrentProduct (p : option (Product num)) (st : State num)
  : State num :=
  {| products := products st; isLoading := isLoading st;
     openDialog := openDialog st; isEditing := isEditing st;
     currentProduct := p; snackbar := snackbar st; formData := formData st |}.

Definition setSnackbar (sn : Snackbar) (st : State num) : State num :=
  {| products := products st; isLoading := isLoading st;
     openDialog := openDialog st; isEditing := isEditing st;
     currentProduct := currentProduct st; snackbar := sn;
     formData := formData st |}.

Definition setFormData (fd : Product num) (st : State num) : State num :=
  {| products := products st; isLoading := isLoading st;
     openDialog := openDialog st; isEditing := isEditing st;
     currentProduct := currentProduct st; snackbar := snackbar st;
     formData := fd |}.

(** [showSnackbar] *)
Definition showSnackbar (m : string) (sev : Severity) (st : State num)
  : State num :=
  setSnackbar {| open := true; message := m; severity := sev |} st.

(** [err instanceof Error ? err.message : fallback] *)
Definition error_message (err : option string) (fallback : string) : string :=
  default fallback err.

(** [fetchProducts], given the answer to its request. *)
Definition fetchProducts (res : FetchResult num) (st : State num) : State num :=
  let failed (err : option string) (st : State num) :=
    setProducts []
      (showSnackbar
         ("Failed to fetch products: " +:+ error_message err "Unknown error")
         error st) in
  let st :=
    match res with
    | Rejected err => failed err st
    | Response status json =>
        if negb (ok status)
        then failed (Some ("HTTP error! status: " +:+ pretty status)) st
        else match json with
             | Unparsable err => failed (Some err) st
             | Object _ (Some ps) => setProducts ps st
             | Object _ None =>
                 failed (Some "Invalid data structure received from server") st
             end
    end in
  setIsLoading false st.

Inductive InputName := name_field | description_field | price_field.

(** [handleInputChange], given [e.target.name] and [e.target.value]. *)
Definition handleInputChange (field : InputName) (value : string)
  (st : State num) : State num :=
  let prev := formData st in
  setFormData
    match field with
    | name_field =>
        {| _id := _id prev; name := value; description := description prev;
           imageUrl := imageUrl prev; price := price prev; image := image prev |}
    | description_field =>
        {| _id := _id prev; name := name prev; description := value;
           imageUrl := imageUrl prev; price := price prev; image := image prev |}
    | price_field =>
        {| _id := _id prev; name := name prev; description := description prev;
           imageUrl := imageUrl prev;
           price := match value with
                    | EmptyString => zero
                    | _ => parseFloat value
                    end;
           image := image prev |}
    end st.

(** [handleImageChange], given [e.target.files]. *)
Definition handleImageChange (files : option (list BrowserFile))
  (st : State num) : State num :=
  match files ≫= head with
  | Some file =>
      if bool_decide (5 * 1024 * 1024 < size file)%N
      then showSnackbar "Image size should be less than 5MB" error st
      else if negb (String.prefix "image/" (type file))
      then showSnackbar "Please upload an image file" error st
      else
        let prev := formData st in
        setFormData
          {| _id := _id prev; name := name prev;
             description := description prev; imageUrl := imageUrl prev;
             price := price prev; image := Some file |} st
  | None => st
  end.

(** The request that [handleSubmit] sends for a form. *)
Definition submission (st : State num) : HttpCall :=
  let formDataToSend :=
    {| form_name := trim (name (formData st));
       form_description := trim (description (formData st));
       form_price := toString (price (formData st));
       form_image := image (formData st) |} in
  let url :=
    match (if isEditing st then currentProduct st ≫= _id else None) with
    | Some (String c r) =>
        API_BASE_URL +:+ "/products/" +:+ String c r
    | _ => API_BASE_URL +:+ "/products"
    end in
  let method := if isEditing st then PUT else POST in
  {| method := method; target := url; body := Some formDataToSend |}.

(** [handleSubmit], given the answers to its request and to the request of
    the [fetchProducts] that follows a success; with the state it gives the
    requests that were sent. *)
Definition handleSubmit (res refetch : FetchResult num) (st : State num)
  : State num * list HttpCall :=
  let caught (err : option string) (st : State num) :=
    showSnackbar (error_message err "Failed to save product") error st in
  let listing :=
    {| method := GET; target := API_BASE_URL +:+ "/products"; body := None |} in
  let st1 := setIsLoading true st in
  let '(st2, calls) :=
    if negb (nonempty (trim (name (formData st))))
       || negb (nonempty (trim (description (formData st))))
       || le_zero (price (formData st))
    then (caught (Some "Please fill all required fields with valid values") st1,
          [])
    else
      match res with
      | Rejected err => (caught err st1, [submission st])
      | Response status json =>
          if negb (ok status)
          then
            let fallback := "Server returned " +:+ pretty status in
            let m :=
              match json with
              | Object (Some (String c r)) _ => String c r
              | _ => fallback
              end in
            (caught (Some m) st1, [submission st])
          else
            (showSnackbar
               (if isEditing st then "Product updated successfully"
                else "Product added successfully")
               success
               (setOpenDialog false
                  (setFormData initialFormData (fetchProducts refetch st1))),
             [submission st; listing])
      end in
  (setIsLoading false st2, calls).

(** [handleDelete], given the answer of [window.confirm] and those to its
    requests. *)
Definition handleDelete (id : string) (confirmed : bool)
  (res refetch : FetchResult num) (st : State num)
  : State num * list HttpCall :=
  if negb confirmed then (st, [])
  else
    let caught (err : option string) (st : State num) :=
      showSnackbar (error_message err "Failed to delete product") error st in
    let deletion :=
      {| method := DELETE; target := API_BASE_URL +:+ "/products/" +:+ id;
         body := None |} in
    let listing :=
      {| method := GET; target := API_BASE_URL +:+ "/products"; body := None |} in
    let st1 := setIsLoading true st in
    let '(st2, calls) :=
      match res with
      | Rejected err => (caught err st1, [deletion])
      | Response status _ =>
          if negb (ok status)
          then (caught (Some ("Delete failed with status " +:+ pretty status)) st1,
                [deletion])
          else (showSnackbar "Product deleted successfully" success
                  (fetchProducts refetch st1),
                [deletion; listing])
      end in
    (setIsLoading false st2, calls).

(** [handleCloseDialog] *)
Definition handleCloseDialog (st : State num) : State num :=
  setFormData initialFormData
    (setCurrentProduct None (setIsEditing false (setOpenDialog false st))).

(** [handleEdit] *)
Definition handleEdit (product : Product num) (st : State num) : State num :=
  setOpenDialog true
    (setFormData
       {| _id := None; name := name product;
          description := description product; imageUrl := imageUrl product;
          price := price product; image := None |}
       (setCurrentProduct (Some product) (setIsEditing true st))).

(** The click on "Add Product": [setOpenDialog(true)]. *)
Definition openAddDialog (st : State num) : State num := setOpenDialog true st.

(** What the user does to the form of the open dialog. *)
Inductive FormEvent :=
| Typed (field : InputName) (value : string)
| Picked (files : option (list BrowserFile)).

Definition form_event (ev : FormEvent) (st : State num) : State num :=
  match ev with
  | Typed field value => handleInputChange field value st
  | Picked files => handleImageChange files st
  end.

Definition form_events (evs : list FormEvent) (st : State num) : State num :=
  foldl (fun st ev => form_event ev st) st evs.

(** The products that an answer to the listing request delivers: those of
    a 2xx response whose body has them. *)
Definition delivered (res : FetchResult num) : option (list (Product num)) :=
  match res with
  | Response status (Object _ (Some ps)) => if ok status then Some ps else None
  | _ => None
  end.

(** The file passes the checks of [handleImageChange]. *)
Definition acceptable (file : BrowserFile) : bool :=
  bool_decide (size file <= 5242880)%N && String.prefix "image/" (type file).

(** The form passes the check of [handleSubmit]. *)
Definition valid_form (st : State num) : bool :=
  nonempty (trim (name (formData st)))
  && nonempty (trim (description (formData st)))
  && negb (le_zero (price (formData st))).

End Handlers.

End Client.

(** Numbers for the examples: integers, read from and written as decimal
    numerals. *)
Module ClientSample.

#[local] Instance integers : Client.Numbers Z :=
  {| Client.zero := 0%Z;
     Client.le_zero := fun z => bool_decide (z <= 0)%Z;
     Client.parseFloat := fun s => default 0%Z (JsGlobal.parseInt s);
     Client.toString := pretty |}.

Definition mug : Client.Product Z :=
  {| Client._id := Some "p1"; Client.name := "Mug";
     Client.description := "Ceramic mug";
     Client.imageUrl := Sample.mug_url; Client.price := 10%Z;
     Client.image := None |}.

Definition photo : Client.BrowserFile :=
  {| Client.file_name := "mug2.png"; Client.size := 4096%N;
     Client.type := "image/png" |}.

Definition huge : Client.BrowserFile :=
  {| Client.file_name := "mug3.png"; Client.size := 6000000%N;
     Client.type := "image/png" |}.

Definition done_ : Client.FetchResult Z :=
  Client.Response 200 (Client.Object (Some "Product updated") None).

Definition listed_mug : Client.FetchResult Z :=
  Client.Response 200 (Client.Object None (Some [mug])).

Definition offline : Client.FetchResult Z :=
  Client.Rejected (Some "Failed to fetch").

Definition refused : Client.FetchResult Z :=
  Client.Response 500 (Client.Object (Some "Error deleting product") None).

(** The form after "Add Product", and what the user then does to it. *)
Definition blank : Client.State Z := Client.openAddDialog Client.initialState.

Definition filling : list Client.FormEvent :=
  [Client.Typed Client.name_field " Cup ";
   Client.Typed Client.description_field "Tin cup";
   Client.Typed Client.price_field "5";
   Client.Picked (Some [photo])].

End ClientSample.

(** Environments in which one collaborator is down, and a file that the
    media store refuses. *)
Module Faults.

Definition env_rejecting (down : Event -> bool) : Env :=
  {| rejects := down;
     delivery := "https://res.cloudinary.com/demo/image/upload/v2";
     asset_name := fun _ => "mug2" |}.

(** The persistence writes reject; everything else answers. *)
Definition writes_down : Env := env_rejecting is_write.

Definition clip : File := {| originalname := "mug.gif"; file_format := "gif" |}.

End Faults.

(** * Properties *)

(** ** [split] *)

Section Split.
Variable sep : ascii.

Lemma split_not_nil (s : string) : Js.split sep s <> [].
Proof.
  destruct s as [|c s]; simpl; [discriminate|].
  destruct (Ascii.eqb c sep); [discriminate|].
  destruct (Js.split sep s); discriminate.
Qed.

Lemma split_no_occurrence (s : string) :
  Js.occurs sep s = false -> Js.split sep s = [s].
Proof.
  induction s as [|c s IH]; simpl; [reflexivity|].
  intros [Hc Hs]%orb_false_iff. rewrite Hc, (IH Hs). reflexivity.
Qed.

Lemma split_cons_sep (s : string) :
  Js.split sep (String sep s) = EmptyString :: Js.split sep s.
Proof. simpl. rewrite Ascii.eqb_refl. reflexivity. Qed.

(** Only what follows the last separator matters for the last segment. *)
Lemma last_split_app (a b d : string) :
  List.last (Js.split sep (a +:+ String sep b)) d = List.last (Js.split sep b) d.
Proof.
  induction a as [|c a IH].
  - change (EmptyString +:+ String sep b) with (String sep b).
    rewrite split_cons_sep. simpl.
    destruct (Js.split sep b) eqn:E; [by destruct (split_not_nil b)|done].
  - change (String c a +:+ String sep b) with (String c (a +:+ String sep b)).
    simpl. destruct (Ascii.eqb c sep).
    + simpl. destruct (Js.split sep (a +:+ String sep b)) eqn:E;
        [by destruct (split_not_nil (a +:+ String sep b))|]. exact IH.
    + destruct (Js.split sep (a +:+ String sep b)) as [|seg rest] eqn:E;
        [by destruct (split_not_nil (a +:+ String sep b))|].
      destruct rest; [|exact IH].
      (* a single segment cannot be: the separator occurs *)
      exfalso. clear IH. revert seg E.
      induction a as [|c' a IHa]; intros seg E.
      * change (EmptyString +:+ String sep b) with (String sep b) in E.
        rewrite split_cons_sep in E.
        destruct (Js.split sep b) eqn:E'; [by destruct (split_not_nil b)|done].
      * change (String c' a +:+ String sep b)
          with (String c' (a +:+ String sep b)) in E.
        simpl in E. destruct (Ascii.eqb c' sep).
        -- destruct (Js.split sep (a +:+ String sep b)) eqn:E';
             [by destruct (split_not_nil (a +:+ String sep b))|done].
        -- destruct (Js.split sep (a +:+ String sep b)) as [|seg' rest'] eqn:E';
             [by destruct (split_not_nil (a +:+ String sep b))|].
           destruct rest'; [|done]. by eapply IHa.
Qed.

(** The first segment is what precedes the first separator. *)
Lemma hd_split_app (a b d : string) :
  Js.occurs sep a = false ->
  List.hd d (Js.split sep (a +:+ String sep b)) = a.
Proof.
  induction a as [|c a IH]; intros H.
  - change (EmptyString +:+ String sep b) with (String sep b).
    by rewrite split_cons_sep.
  - change (String c a +:+ String sep b) with (String c (a +:+ String sep b)).
    simpl in *. apply orb_false_iff in H as [Hc Ha]. rewrite Hc.
    specialize (IH Ha).
    destruct (Js.split sep (a +:+ String sep b)) eqn:E;
      [by destruct (split_not_nil (a +:+ String sep b))|].
    simpl in *. by rewrite IH.
Qed.
End Split.

Lemma append_cons (c : ascii) (a b : string) :
  String c a +:+ b = String c (a +:+ b).
Proof. reflexivity. Qed.

Lemma append_nil (b : string) : EmptyString +:+ b = b.
Proof. reflexivity. Qed.

Lemma occurs_app (c : ascii) (a b : string) :
  Js.occurs c (a +:+ b) = Js.occurs c a || Js.occurs c b.
Proof.
  induction a as [|d a IH]; [done|].
  rewrite append_cons. simpl. by rewrite IH, orb_assoc.
Qed.

Lemma app_assoc_string (a b c : string) : (a +:+ b) +:+ c = a +:+ (b +:+ c).
Proof.
  induction a as [|x a IH]; [done|]. rewrite !append_cons. by rewrite IH.
Qed.

Lemma strip_extension_app (a b : string) :
  Js.occurs dot a = false -> Js.occurs dot b = false ->
  strip_extension (a +:+ String dot b) = a.
Proof.
  intros Ha Hb. induction a as [|c a IH].
  - rewrite append_nil. simpl. by rewrite Hb.
  - rewrite append_cons. simpl in Ha. apply orb_false_iff in Ha as [Hc Ha].
    simpl. rewrite Hc, occurs_app. simpl. rewrite orb_true_r.
    by rewrite (IH Ha).
Qed.

Lemma truthy_append (a b : string) (c : ascii) :
  Js.truthy (Some (a +:+ String c b)) = true.
Proof. by destruct a. Qed.

(** ** The media store adapter *)

Lemma allowed_format_no_slash (fmt : string) :
  is_allowed fmt = true -> Js.occurs slash fmt = false /\ Js.occurs dot fmt = false.
Proof.
  unfold is_allowed, allowed_formats. intros H%bool_decide_eq_true.
  apply elem_of_cons in H as [->|H]; [done|].
  apply elem_of_cons in H as [->|H]; [done|]. by apply elem_of_nil in H.
Qed.

Lemma getPublicIdFromUrl_issued (delivery name fmt : string) :
  Js.occurs slash name = false -> Js.occurs dot name = false ->
  Js.occurs slash fmt = false ->
  getPublicIdFromUrl (url (issued_asset delivery name fmt))
  = identifier (issued_asset delivery name fmt).
Proof.
  intros Hs Hd Hf. unfold getPublicIdFromUrl, issued_asset. simpl.
  change (delivery +:+ "/" +:+ folder +:+ "/" +:+ name +:+ "." +:+ fmt)
    with (delivery +:+ String slash (folder +:+ String slash (name +:+ String dot fmt))).
  rewrite !last_split_app.
  rewrite (split_no_occurrence slash)
    by (rewrite occurs_app; simpl; by rewrite Hs, Hf).
  simpl. by rewrite hd_split_app.
Qed.

Lemma deriveIdentifier_issued (delivery name fmt : string) :
  Js.occurs slash name = false -> Js.occurs dot name = false ->
  Js.occurs slash fmt = false -> Js.occurs dot fmt = false ->
  deriveIdentifier (url (issued_asset delivery name fmt))
  = identifier (issued_asset delivery name fmt).
Proof.
  intros Hs Hd Hf Hfd. unfold deriveIdentifier, issued_asset. simpl.
  change (delivery +:+ "/" +:+ folder +:+ "/" +:+ name +:+ "." +:+ fmt)
    with (delivery +:+ String slash (folder +:+ String slash (name +:+ String dot fmt))).
  rewrite !last_split_app.
  rewrite (split_no_occurrence slash)
    by (rewrite occurs_app; simpl; by rewrite Hs, Hf).
  simpl. by rewrite strip_extension_app.
Qed.

Lemma upload_asset_returned env f w a w' :
  upload_asset env f w = (Returned a, w') ->
  is_allowed (file_format f) = true /\
  a = issued_asset (delivery env) (asset_name env f) (file_format f) /\
  w' = log (MediaUpload f) w.
Proof.
  unfold upload_asset, bind, call, ret, throw.
  destruct (rejects env (MediaUpload f)); [done|].
  destruct (is_allowed (file_format f)); [|done].
  by intros [= <- <-].
Qed.

(** C1: for every asset the adapter uploaded successfully (hence stored
    under the folder [store-products], in an allowed format, under a name
    of the store's choosing that has neither a ['/'] nor a ['.']),
    [getPublicIdFromUrl] of the returned URL is the store's identifier of
    the asset; and on that URL the function is the derivation the
    specification words: last path segment, extension stripped, folder
    prefixed. *)
Theorem upload_roundtrip env f w a w' :
  upload_asset env f w = (Returned a, w') ->
  Js.occurs slash (asset_name env f) = false ->
  Js.occurs dot (asset_name env f) = false ->
  getPublicIdFromUrl (url a) = identifier a /\
  getPublicIdFromUrl (url a) = deriveIdentifier (url a).
Proof.
  intros (Hfmt & -> & _)%upload_asset_returned Hs Hd.
  apply allowed_format_no_slash in Hfmt as [Hfs Hfd].
  rewrite getPublicIdFromUrl_issued, deriveIdentifier_issued by done. done.
Qed.

(** ** Looking a product up by scanning the list *)

Lemma find_by_id_lookup (id : string) (m : gmap string Product) :
  find_by_id id (map_to_list m) = (fun p => (id, p)) <$> m !! id.
Proof.
  unfold find_by_id. destruct (m !! id) as [p|] eqn:E; simpl.
  - destruct (List.find _ _) as [[k p']|] eqn:F.
    + apply List.find_some in F as [Hin Heq]. simpl in Heq.
      apply String.eqb_eq in Heq. subst k.
      apply list_elem_of_In, elem_of_map_to_list in Hin. congruence.
    + apply elem_of_map_to_list, list_elem_of_In in E.
      apply (List.find_none _ _ F) in E. simpl in E.
      by rewrite String.eqb_refl in E.
  - destruct (List.find _ _) as [[k p']|] eqn:F; [|done].
    apply List.find_some in F as [Hin Heq]. simpl in Heq.
    apply String.eqb_eq in Heq. subst k.
    apply list_elem_of_In, elem_of_map_to_list in Hin. congruence.
Qed.

(** ** Running handlers symbolically *)

Lemma issued_by_refl (w : World) : issued_by w w = [].
Proof. unfold issued_by. apply drop_all. Qed.

Lemma issued_by_app (w w' : World) (es : list Event) :
  trace w' = trace w ++ es -> issued_by w w' = es.
Proof. unfold issued_by. intros ->. apply drop_app_length. Qed.

Ltac unfold_api :=
  unfold Catalog.list_all, Catalog.create, Catalog.update, Catalog.delete,
    Basic.create, Basic.update, Basic.delete, Basic.serve, Basic.put_handler,
    Basic.delete_handler, serve, express,
    get_handler, post_handler, put_handler, delete_handler,
    upload_single, upload_asset, destroy,
    getProducts, insertProduct, updateProduct, deleteProduct,
    respond, try_catch, bind, ret, throw, call, read_db, write_db.

Ltac same_world := unfold log; simpl; rewrite <- ?app_assoc; reflexivity.

(** ** Invariants through the monad *)

Section Hoare.
Context (P : World -> Prop) (P_blind : trace_blind P).

Lemma hoare_ret {A} (a : A) (Q : A -> Prop) : Q a -> hoare P (ret a) Q.
Proof. by intros Ha w Hw. Qed.

Lemma hoare_throw {A} (Q : A -> Prop) : hoare P throw Q.
Proof. by intros w Hw. Qed.

Lemma hoare_bind {A B} (m : M A) (k : A -> M B) (Q : A -> Prop) (R : B -> Prop) :
  hoare P m Q -> (forall a, Q a -> hoare P (k a) R) -> hoare P (bind m k) R.
Proof.
  intros Hm Hk w Hw. unfold bind. specialize (Hm w Hw).
  destruct (m w) as [[a|] w1]; [|done].
  destruct Hm as [Ha Hw1]. by apply Hk.
Qed.

Lemma hoare_try_catch {A} (body handler : M A) (Q : A -> Prop) :
  hoare P body Q -> hoare P handler Q -> hoare P (try_catch body handler) Q.
Proof.
  intros Hb Hh w Hw. unfold try_catch. specialize (Hb w Hw).
  destruct (body w) as [[a|] w1]; [done|]. by apply Hh.
Qed.

Lemma hoare_call env e : hoare P (call env e) (fun _ => True).
Proof.
  intros w Hw. unfold call. destruct (rejects env e); auto.
Qed.

Lemma hoare_getProducts env : hoare P (getProducts env) (fun _ => True).
Proof.
  unfold getProducts, read_db.
  eapply hoare_bind; [apply hoare_call|]. intros _ _.
  eapply hoare_bind with (Q := fun _ => True); [by intros w Hw|].
  intros d _. by apply hoare_ret.
Qed.

Lemma hoare_destroy env publicId :
  hoare P (destroy env publicId) (fun _ => True).
Proof. apply hoare_call. Qed.

Lemma hoare_upload_single env req :
  hoare P (upload_single env req)
    (fun file => forall f, file = Some f -> Js.truthy (Some (path f)) = true).
Proof.
  unfold upload_single. destruct (image req) as [f|]; [|by apply hoare_ret].
  unfold upload_asset.
  eapply hoare_bind with (Q := fun a => Js.truthy (Some (url a)) = true).
  - eapply hoare_bind; [apply hoare_call|]. intros _ _.
    destruct (is_allowed (file_format f)); [|apply hoare_throw].
    apply hoare_ret.
    exact (truthy_append (delivery env)
             (folder +:+ "/" +:+ asset_name env f +:+ "." +:+ file_format f)
             slash).
  - intros a Ha. apply hoare_ret. by intros f' [= <-].
Qed.

(** What each persistence write must respect for [P] to survive. *)
Hypothesis P_insert : forall w p,
  Js.truthy (imageUrl p) = true -> P w ->
  P {| db := <[fresh (issued w) := p]> (db w);
       issued := {[fresh (issued w)]} ∪ issued w;
       trace := trace w |}.
Hypothesis P_alter : forall w id data,
  (forall u, imageUrl data = Some u -> Js.truthy (Some u) = true) -> P w ->
  P {| db := alter (merge_fields data) id (db w);
       issued := issued w; trace := trace w |}.
Hypothesis P_delete : forall w id,
  P w -> P {| db := delete id (db w); issued := issued w; trace := trace w |}.

Lemma hoare_insertProduct env p :
  Js.truthy (imageUrl p) = true ->
  hoare P (insertProduct env p) (fun _ => True).
Proof.
  intros Hp. unfold insertProduct.
  eapply hoare_bind; [apply hoare_call|]. intros _ _ w Hw. auto.
Qed.

Lemma hoare_updateProduct env id data :
  (forall u, imageUrl data = Some u -> Js.truthy (Some u) = true) ->
  hoare P (updateProduct env id data) (fun _ => True).
Proof.
  intros Hd. unfold updateProduct, read_db, write_db.
  eapply hoare_bind; [apply hoare_call|]. intros _ _ w Hw.
  unfold bind, ret. auto.
Qed.

Lemma hoare_deleteProduct env id :
  hoare P (deleteProduct env id) (fun _ => True).
Proof.
  unfold deleteProduct, read_db, write_db.
  eapply hoare_bind; [apply hoare_call|]. intros _ _ w Hw.
  unfold bind, ret. auto.
Qed.

Lemma hoare_get_handler env : hoare P (get_handler env) (fun _ => True).
Proof.
  unfold get_handler, respond. apply hoare_try_catch; [|by apply hoare_ret].
  eapply hoare_bind; [apply hoare_getProducts|]. intros ps _. by apply hoare_ret.
Qed.

Lemma hoare_post_handler env req file :
  (forall f, file = Some f -> Js.truthy (Some (path f)) = true) ->
  hoare P (post_handler env req file) (fun _ => True).
Proof.
  intros Hf. unfold post_handler, respond.
  apply hoare_try_catch; [|by apply hoare_ret].
  destruct file as [f|]; [|by apply hoare_ret].
  eapply hoare_bind; [apply hoare_insertProduct; by apply Hf|].
  intros r _. by apply hoare_ret.
Qed.

Lemma hoare_put_handler env req file :
  (forall f, file = Some f -> Js.truthy (Some (path f)) = true) ->
  hoare P (put_handler env req file) (fun _ => True).
Proof.
  intros Hf. unfold put_handler, respond.
  apply hoare_try_catch; [|by apply hoare_ret].
  eapply hoare_bind with (Q := fun _ => True).
  { eapply hoare_bind; [apply hoare_getProducts|]. intros ps _.
    by apply hoare_ret. }
  intros existing _.
  eapply hoare_bind
    with (Q := fun data => forall u, imageUrl data = Some u ->
                                     Js.truthy (Some u) = true).
  { destruct file as [f|]; [|by apply hoare_ret].
    eapply hoare_bind with (Q := fun _ => True).
    - destruct (existing ≫= fun d => imageUrl d.2) as [u|];
        [|by apply hoare_ret].
      destruct (Js.truthy (Some u)); [apply hoare_destroy|by apply hoare_ret].
    - intros _ _. apply hoare_ret. simpl. intros u [= <-]. by apply Hf. }
  intros data Hdata.
  eapply hoare_bind; [by apply hoare_updateProduct|].
  intros r _. by apply hoare_ret.
Qed.

Lemma hoare_delete_handler env req :
  hoare P (delete_handler env req) (fun _ => True).
Proof.
  unfold delete_handler, respond.
  apply hoare_try_catch; [|by apply hoare_ret].
  eapply hoare_bind with (Q := fun _ => True).
  { eapply hoare_bind; [apply hoare_getProducts|]. intros ps _.
    by apply hoare_ret. }
  intros [[k p]|] _; [|by apply hoare_ret].
  eapply hoare_bind with (Q := fun _ => True).
  { destruct (imageUrl p) as [u|]; [|by apply hoare_ret].
    destruct (Js.truthy (Some u)); [apply hoare_destroy|by apply hoare_ret]. }
  intros _ _. eapply hoare_bind; [apply hoare_deleteProduct|].
  intros r _. by apply hoare_ret.
Qed.

Lemma express_keeps {A} (mw : M A) (h : A -> M Response) (Q : A -> Prop) w :
  hoare P mw Q -> (forall a, Q a -> hoare P (h a) (fun _ => True)) ->
  P w -> P (snd (express mw h w)).
Proof.
  intros Hmw Hh Hw. unfold express.
  pose proof (hoare_bind mw h Q (fun _ => True) Hmw Hh w Hw) as H.
  destruct (bind mw h w) as [[r|] w']; simpl; tauto.
Qed.

(** Every request served keeps [P]. *)
Lemma serve_keeps env h w : P w -> P (snd (serve env h w)).
Proof.
  destruct h as [|req|req|req]; simpl.
  - apply express_keeps with (Q := fun _ => True);
      [by apply hoare_ret|intros; apply hoare_get_handler].
  - eapply express_keeps; [apply hoare_upload_single|].
    intros file Hf. by apply hoare_post_handler.
  - eapply express_keeps; [apply hoare_upload_single|].
    intros file Hf. by apply hoare_put_handler.
  - apply express_keeps with (Q := fun _ => True);
      [by apply hoare_ret|intros; apply hoare_delete_handler].
Qed.

Lemma serve_all_keeps rs w : P w -> P (serve_all rs w).
Proof.
  revert w. induction rs as [|[env h] rs IH]; intros w Hw; simpl; [done|].
  by apply IH, serve_keeps.
Qed.
End Hoare.

(** The two invariants. *)

Lemma image_invariant_kept env h w :
  image_invariant w -> image_invariant (snd (serve env h w)).
Proof.
  apply serve_keeps.
  - by intros e w'.
  - intros w' p Hp Hw' id q. simpl. rewrite lookup_insert.
    case_decide; [by intros [= <-]|apply Hw'].
  - intros w' id data Hdata Hw' id' q. simpl. rewrite lookup_alter.
    case_decide; [|apply Hw']. subst id'.
    destruct (db w' !! id) as [p|] eqn:E; simpl; [|done]. intros [= <-].
    simpl. destruct (imageUrl data) as [u|]; [by apply Hdata|by eapply Hw'].
  - intros w' id Hw' id' q. simpl. rewrite lookup_delete.
    case_decide; [done|apply Hw'].
Qed.

Lemma retired_kept id rs w : retired id w -> retired id (serve_all rs w).
Proof.
  apply serve_all_keeps.
  - by intros e w'.
  - intros w' p _ (Hin & Hnone & Hwf). unfold retired, well_formed in *. simpl.
    pose proof (is_fresh (issued w')) as Hfresh.
    split; [by apply elem_of_union_r|]. split.
    + rewrite lookup_insert_ne; [done|]. by intros <-.
    + rewrite dom_insert_L. by apply union_mono_l.
  - intros w' id' data _ (Hin & Hnone & Hwf). unfold retired, well_formed in *.
    simpl. split; [done|]. split.
    + destruct (decide (id' = id)) as [->|Hne];
        [by rewrite lookup_alter_eq, Hnone|by rewrite lookup_alter_ne].
    + by rewrite dom_alter_L.
  - intros w' id' (Hin & Hnone & Hwf). unfold retired, well_formed in *. simpl.
    split; [done|]. split.
    + destruct (decide (id' = id)) as [->|Hne];
        [apply lookup_delete_eq|by rewrite lookup_delete_ne].
    + rewrite dom_delete_L. by apply subseteq_difference_l.
Qed.

Lemma image_invariant_kept_all rs w :
  image_invariant w -> image_invariant (serve_all rs w).
Proof.
  revert w. induction rs as [|[env h] rs IH]; intros w Hw; simpl; [done|].
  by apply IH, image_invariant_kept.
Qed.

(** Whatever the requests served since the start, every stored product
    has an image. *)
Lemma reachable_has_image rs id p :
  db (serve_all rs empty_world) !! id = Some p ->
  exists u, imageUrl p = Some u /\ Js.truthy (Some u) = true.
Proof.
  intros Hp.
  assert (Hinv : image_invariant empty_world).
  { intros id' p'. unfold empty_world; simpl. by rewrite lookup_empty. }
  apply (image_invariant_kept_all rs) in Hinv. apply Hinv in Hp.
  destruct (imageUrl p) as [u|]; [by exists u|done].
Qed.

Lemma list_all_up env w :
  rejects env GetProducts = false ->
  fst (Catalog.list_all env w)
  = {| status := 200; json := JsonProducts (map_to_list (db w)) |}.
Proof. intros H. unfold_api. simpl. by rewrite H. Qed.

Lemma listed_in_db env w d : d ∈ listed (fst (Catalog.list_all env w)) -> db w !! d.1 = Some d.2.
Proof.
  unfold_api. simpl. destruct (rejects env GetProducts); simpl.
  - by intros ?%elem_of_nil.
  - destruct d. by intros ?%elem_of_map_to_list.
Qed.

(** ** The handlers on an existing product, outcome by outcome *)

Ltac trace_of :=
  unfold log; simpl; rewrite <- ?app_assoc; simpl;
  first [ rewrite issued_by_refl | erewrite issued_by_app by reflexivity ].

Lemma delete_existing_run env req w p u :
  db w !! params_id req = Some p ->
  imageUrl p = Some u ->
  Js.truthy (Some u) = true ->
  rejects env GetProducts = false ->
  forall b1 b2,
    rejects env (MediaDestroy (getPublicIdFromUrl u)) = b1 ->
    rejects env (DeleteProduct (params_id req)) = b2 ->
    Catalog.delete env req w =
      if b1 then
        ({| status := 500; json := JsonMessage "Error deleting product" |},
         {| db := db w; issued := issued w;
            trace := trace w ++ [GetProducts; MediaDestroy (getPublicIdFromUrl u)] |})
      else if b2 then
        ({| status := 500; json := JsonMessage "Error deleting product" |},
         {| db := db w; issued := issued w;
            trace := trace w ++ [GetProducts; MediaDestroy (getPublicIdFromUrl u);
                                 DeleteProduct (params_id req)] |})
      else
        ({| status := 200;
            json := JsonResult "Product and associated image deleted" Acknowledged |},
         {| db := delete (params_id req) (db w); issued := issued w;
            trace := trace w ++ [GetProducts; MediaDestroy (getPublicIdFromUrl u);
                                 DeleteProduct (params_id req)] |}).
Proof.
  intros Hp Hu Htruthy Hget b1 b2 H1 H2. unfold_api. simpl. rewrite Hget. simpl.
  rewrite find_by_id_lookup, Hp. simpl. rewrite Hu. simpl. rewrite Htruthy.
  rewrite H1. destruct b1; simpl; [same_world|].
  rewrite H2. destruct b2; simpl; same_world.
Qed.

(** An Update that carries an image, on a product that has one. *)
Lemma update_existing_run env req w p u f :
  db w !! params_id req = Some p ->
  imageUrl p = Some u ->
  Js.truthy (Some u) = true ->
  image req = Some f ->
  is_allowed (file_format f) = true ->
  rejects env (MediaUpload f) = false ->
  rejects env GetProducts = false ->
  forall b1 b2,
    rejects env (MediaDestroy (getPublicIdFromUrl u)) = b1 ->
    rejects env (UpdateProduct (params_id req)
                   (submitted req (uploaded_url env req))) = b2 ->
    Catalog.update env req w =
      if b1 then
        ({| status := 500; json := JsonMessage "Error updating product" |},
         {| db := db w; issued := issued w;
            trace := trace w ++ [MediaUpload f; GetProducts;
                                 MediaDestroy (getPublicIdFromUrl u)] |})
      else if b2 then
        ({| status := 500; json := JsonMessage "Error updating product" |},
         {| db := db w; issued := issued w;
            trace := trace w ++ [MediaUpload f; GetProducts;
                                 MediaDestroy (getPublicIdFromUrl u);
                                 UpdateProduct (params_id req)
                                   (submitted req (uploaded_url env req))] |})
      else
        ({| status := 200; json := JsonResult "Product updated" Acknowledged |},
         {| db := alter (merge_fields (submitted req (uploaded_url env req)))
                    (params_id req) (db w);
            issued := issued w;
            trace := trace w ++ [MediaUpload f; GetProducts;
                                 MediaDestroy (getPublicIdFromUrl u);
                                 UpdateProduct (params_id req)
                                   (submitted req (uploaded_url env req))] |}).
Proof.
  intros Hp Hu Htruthy Hf Hfmt Hup Hget b1 b2 H1.
  unfold uploaded_url, submitted. rewrite Hf. simpl. intros H2.
  unfold_api. rewrite Hf. simpl. rewrite Hup, Hfmt. simpl. rewrite Hget. simpl.
  rewrite find_by_id_lookup, Hp. simpl. rewrite Hu. simpl. rewrite Htruthy.
  rewrite H1. destruct b1; simpl; [same_world|].
  rewrite H2. destruct b2; simpl; same_world.
Qed.

(** An Update that carries no image, whether or not the id exists. *)
Lemma update_plain_run env req w :
  image req = None ->
  rejects env GetProducts = false ->
  forall b,
    rejects env (UpdateProduct (params_id req) (submitted req None)) = b ->
    Catalog.update env req w =
      if b then
        ({| status := 500; json := JsonMessage "Error updating product" |},
         {| db := db w; issued := issued w;
            trace := trace w ++ [GetProducts;
                                 UpdateProduct (params_id req) (submitted req None)] |})
      else
        ({| status := 200; json := JsonResult "Product updated" Acknowledged |},
         {| db := alter (merge_fields (submitted req None)) (params_id req) (db w);
            issued := issued w;
            trace := trace w ++ [GetProducts;
                                 UpdateProduct (params_id req) (submitted req None)] |}).
Proof.
  intros Hf Hget b. unfold submitted. intros H.
  unfold_api. rewrite Hf. simpl. rewrite Hget. simpl.
  rewrite H. destruct b; simpl; same_world.
Qed.

(** An Update that carries an image, for an id that matches no product. *)
Lemma update_missing_run env req w f :
  db w !! params_id req = None ->
  image req = Some f ->
  is_allowed (file_format f) = true ->
  rejects env (MediaUpload f) = false ->
  rejects env GetProducts = false ->
  forall b,
    rejects env (UpdateProduct (params_id req)
                   (submitted req (uploaded_url env req))) = b ->
    Catalog.update env req w =
      if b then
        ({| status := 500; json := JsonMessage "Error updating product" |},
         {| db := db w; issued := issued w;
            trace := trace w ++ [MediaUpload f; GetProducts;
                                 UpdateProduct (params_id req)
                                   (submitted req (uploaded_url env req))] |})
      else
        ({| status := 200; json := JsonResult "Product updated" Acknowledged |},
         {| db := alter (merge_fields (submitted req (uploaded_url env req)))
                    (params_id req) (db w);
            issued := issued w;
            trace := trace w ++ [MediaUpload f; GetProducts;
                                 UpdateProduct (params_id req)
                                   (submitted req (uploaded_url env req))] |}).
Proof.
  intros Hp Hf Hfmt Hup Hget b.
  unfold uploaded_url, submitted. rewrite Hf. simpl. intros H.
  unfold_api. rewrite Hf. simpl. rewrite Hup, Hfmt. simpl. rewrite Hget. simpl.
  rewrite find_by_id_lookup, Hp. simpl.
  rewrite H. destruct b; simpl; same_world.
Qed.

(** The plain router's Update, without and with an image. *)
Lemma basic_update_plain_run env req w :
  image req = None ->
  forall b,
    rejects env (UpdateProduct (params_id req) (submitted req None)) = b ->
    Basic.update env req w =
      if b then
        ({| status := 500; json := JsonMessage "Error updating product" |},
         {| db := db w; issued := issued w;
            trace := trace w ++ [UpdateProduct (params_id req) (submitted req None)] |})
      else
        ({| status := 200; json := JsonResult "Product updated" Acknowledged |},
         {| db := alter (merge_fields (submitted req None)) (params_id req) (db w);
            issued := issued w;
            trace := trace w ++ [UpdateProduct (params_id req) (submitted req None)] |}).
Proof.
  intros Hf b. unfold submitted. intros H.
  unfold_api. rewrite Hf. simpl.
  rewrite H. destruct b; simpl; same_world.
Qed.

Lemma basic_update_image_run env req w f :
  image req = Some f ->
  is_allowed (file_format f) = true ->
  rejects env (MediaUpload f) = false ->
  forall b,
    rejects env (UpdateProduct (params_id req)
                   (submitted req (uploaded_url env req))) = b ->
    Basic.update env req w =
      if b then
        ({| status := 500; json := JsonMessage "Error updating product" |},
         {| db := db w; issued := issued w;
            trace := trace w ++ [MediaUpload f;
                                 UpdateProduct (params_id req)
                                   (submitted req (uploaded_url env req))] |})
      else
        ({| status := 200; json := JsonResult "Product updated" Acknowledged |},
         {| db := alter (merge_fields (submitted req (uploaded_url env req)))
                    (params_id req) (db w);
            issued := issued w;
            trace := trace w ++ [MediaUpload f;
                                 UpdateProduct (params_id req)
                                   (submitted req (uploaded_url env req))] |}).
Proof.
  intros Hf Hfmt Hup b.
  unfold uploaded_url, submitted. rewrite Hf. simpl. intros H.
  unfold_api. rewrite Hf. simpl. rewrite Hup, Hfmt. simpl.
  rewrite H. destruct b; simpl; same_world.
Qed.

(** C9: a Create without an image file answers 400 "Image is required" and
    leaves the world as it was: nothing is inserted, nothing is uploaded,
    no collaborator is called at all. Both routers share the handler. *)
Theorem create_without_image env req w :
  image req = None ->
  Catalog.create env req w =
    ({| status := 400; json := JsonMessage "Image is required" |}, w) /\
  Basic.create env req w =
    ({| status := 400; json := JsonMessage "Image is required" |}, w).
Proof. intros H. unfold_api. rewrite H. by split. Qed.

(** C8: a Delete whose id matches no product issues no media-store call and
    no persistence write and leaves the collection as it was, whatever the
    collaborators do; once the collection could be listed, its answer is
    404 "Product not found". *)
Theorem delete_missing_not_found env req w :
  db w !! params_id req = None ->
  let r := Catalog.delete env req w in
  filter is_media (issued_by w (snd r)) = [] /\
  filter is_write (issued_by w (snd r)) = [] /\
  db (snd r) = db w /\
  (rejects env GetProducts = false ->
   fst r = {| status := 404; json := JsonMessage "Product not found" |}).
Proof.
  intros H. unfold_api. simpl.
  destruct (rejects env GetProducts); simpl.
  - rewrite (issued_by_app _ _ [GetProducts]) by done. done.
  - rewrite find_by_id_lookup, H. simpl.
    rewrite (issued_by_app _ _ [GetProducts]) by done. done.
Qed.

(** C10: a Delete of an existing product whose stored [imageUrl] is empty
    or absent issues no media-store call, whatever the collaborators do;
    when the persistence calls succeed the record is deleted and the answer
    is 200. *)
Theorem delete_without_image env req w p :
  db w !! params_id req = Some p ->
  Js.truthy (imageUrl p) = false ->
  let r := Catalog.delete env req w in
  filter is_media (issued_by w (snd r)) = [] /\
  (rejects env GetProducts = false ->
   rejects env (DeleteProduct (params_id req)) = false ->
   fst r = {| status := 200;
              json := JsonResult "Product and associated image deleted"
                        Acknowledged |} /\
   db (snd r) = delete (params_id req) (db w)).
Proof.
  intros Hp Himg. unfold_api. simpl.
  destruct (rejects env GetProducts) eqn:Hget; simpl.
  { rewrite (issued_by_app _ _ [GetProducts]) by done. done. }
  rewrite find_by_id_lookup, Hp. simpl.
  destruct (imageUrl p) as [u|]; simpl; rewrite ?Himg;
  destruct (rejects env (DeleteProduct (params_id req))) eqn:Hdel; simpl.
  all: rewrite (issued_by_app _ _ [GetProducts; DeleteProduct (params_id req)])
         by (simpl; by rewrite <- app_assoc); done.
Qed.

(** C7: a Delete of an existing product (with a stored image) issues
    exactly one media-store call, the deletion of the identifier derived
    from the product's [imageUrl]; when the collaborators answer, the
    record is deleted, the answer is 200, and no later listing, after
    whatever further requests, carries a product with that id. *)
Theorem delete_removes_product env req w p u :
  db w !! params_id req = Some p ->
  imageUrl p = Some u ->
  Js.truthy (Some u) = true ->
  rejects env GetProducts = false ->
  let r := Catalog.delete env req w in
  filter is_media (issued_by w (snd r)) = [MediaDestroy (getPublicIdFromUrl u)] /\
  (rejects env (MediaDestroy (getPublicIdFromUrl u)) = false ->
   rejects env (DeleteProduct (params_id req)) = false ->
   status (fst r) = 200 /\
   db (snd r) = delete (params_id req) (db w) /\
   (well_formed w ->
    forall rs env' d,
      d ∈ listed (fst (Catalog.list_all env' (serve_all rs (snd r)))) ->
      d.1 <> params_id req)).
Proof.
  intros Hp Hu Htruthy Hget.
  pose proof (delete_existing_run env req w p u Hp Hu Htruthy Hget) as Hrun.
  intros r. subst r. split.
  - rewrite (Hrun _ _ eq_refl eq_refl).
    destruct (rejects env (MediaDestroy _)), (rejects env (DeleteProduct _));
      simpl; by erewrite issued_by_app by (simpl; reflexivity).
  - intros H1 H2. rewrite (Hrun _ _ H1 H2). simpl.
    split; [done|]. split; [done|].
    intros Hwf rs env' d Hd Heq.
    apply listed_in_db in Hd. rewrite Heq in Hd.
    assert (Hret : retired (params_id req)
                     {| db := delete (params_id req) (db w); issued := issued w;
                        trace := trace w ++ [GetProducts;
                                   MediaDestroy (getPublicIdFromUrl u);
                                   DeleteProduct (params_id req)] |}).
    { unfold retired, well_formed in *. simpl. split.
      - apply Hwf, elem_of_dom. by eexists.
      - split; [apply lookup_delete_eq|].
        rewrite dom_delete_L. by apply subseteq_difference_l. }
    apply (retired_kept _ rs) in Hret. destruct Hret as (_ & Hnone & _).
    congruence.
Qed.

(** C5: an Update that carries a new image, on an existing product (with a
    stored image), issues exactly one media-store deletion, that of the
    identifier derived from the previous [imageUrl]; when the deletion and
    the persistence update go through, the answer is 200 and the stored
    [imageUrl] is the URL of the newly uploaded asset. *)
Theorem update_with_image env req w p u f :
  db w !! params_id req = Some p ->
  imageUrl p = Some u ->
  Js.truthy (Some u) = true ->
  image req = Some f ->
  is_allowed (file_format f) = true ->
  rejects env (MediaUpload f) = false ->
  rejects env GetProducts = false ->
  let a := issued_asset (delivery env) (asset_name env f) (file_format f) in
  let r := Catalog.update env req w in
  filter is_destroy (issued_by w (snd r)) = [MediaDestroy (getPublicIdFromUrl u)] /\
  (rejects env (MediaDestroy (getPublicIdFromUrl u)) = false ->
   rejects env (UpdateProduct (params_id req) (submitted req (Some (url a)))) = false ->
   status (fst r) = 200 /\
   exists p', db (snd r) !! params_id req = Some p' /\ imageUrl p' = Some (url a)).
Proof.
  intros Hp Hu Htruthy Hf Hfmt Hup Hget a r. subst a r.
  pose proof (update_existing_run env req w p u f Hp Hu Htruthy Hf Hfmt Hup Hget)
    as Hrun.
  assert (Hurl : uploaded_url env req
                 = Some (url (issued_asset (delivery env) (asset_name env f)
                                (file_format f))))
    by (unfold uploaded_url; by rewrite Hf).
  rewrite Hurl in Hrun. split.
  - rewrite (Hrun _ _ eq_refl eq_refl).
    destruct (rejects env (MediaDestroy _)), (rejects env (UpdateProduct _ _));
      simpl; by trace_of.
  - intros H1 H2. rewrite (Hrun _ _ H1 H2). simpl. split; [done|].
    eexists. rewrite lookup_alter_eq, Hp. simpl. by split.
Qed.

(** C6: an Update that carries no image, on an existing product, issues no
    media-store call and leaves the stored [imageUrl] as it was, whatever
    the collaborators do; when the persistence calls succeed, the answer is
    200 and the record is the old one with the submitted fields. So it is
    in both routers. *)
Theorem update_without_image env req w p :
  db w !! params_id req = Some p ->
  image req = None ->
  let kept (r : Response * World) :=
    filter is_media (issued_by w (snd r)) = [] /\
    (exists p', db (snd r) !! params_id req = Some p' /\ imageUrl p' = imageUrl p) /\
    (rejects env GetProducts = false ->
     rejects env (UpdateProduct (params_id req) (submitted req None)) = false ->
     status (fst r) = 200 /\
     db (snd r) !! params_id req = Some (merge_fields (submitted req None) p)) in
  kept (Catalog.update env req w) /\ kept (Basic.update env req w).
Proof.
  intros Hp Hf kept. subst kept. simpl. split.
  - destruct (rejects env GetProducts) eqn:Hget.
    { unfold_api. rewrite Hf. simpl. rewrite Hget. simpl.
      split; [by trace_of|]. split; [by exists p|done]. }
    pose proof (update_plain_run env req w Hf Hget _ eq_refl) as Hrun.
    rewrite Hrun.
    destruct (rejects env (UpdateProduct _ _)); simpl.
    + split; [by trace_of|]. split; [by exists p|done].
    + split; [by trace_of|]. rewrite lookup_alter_eq, Hp. simpl.
      split; [by eexists|done].
  - rewrite (basic_update_plain_run env req w Hf _ eq_refl).
    destruct (rejects env (UpdateProduct _ _)); simpl.
    + split; [by trace_of|]. split; [by exists p|done].
    + split; [by trace_of|]. rewrite lookup_alter_eq, Hp. simpl.
      split; [by eexists|done].
Qed.

(** An Update whose id matches no product is not answered with 404 and
    issues no media-store deletion; once the upload of its image (if any)
    and the listing went through, it issues the persistence update for
    that id all the same, as its only write, and answers 200 "Product
    updated" when that call returns. So it is in both routers (the plain
    one does not list). *)
Lemma update_missing_calls env req w :
  db w !! params_id req = None ->
  let data := submitted req (uploaded_url env req) in
  let served (r : Response * World) :=
    status (fst r) <> 404 /\
    filter is_destroy (issued_by w (snd r)) = [] /\
    ((forall f, image req = Some f ->
        is_allowed (file_format f) = true /\ rejects env (MediaUpload f) = false) ->
     rejects env GetProducts = false ->
     filter is_write (issued_by w (snd r)) = [UpdateProduct (params_id req) data] /\
     (rejects env (UpdateProduct (params_id req) data) = false ->
      fst r = {| status := 200; json := JsonResult "Product updated" Acknowledged |})) in
  served (Catalog.update env req w) /\ served (Basic.update env req w).
Proof.
  intros Hp data served. subst data served. simpl. split.
  - destruct (image req) as [f|] eqn:Hf.
    + destruct (is_allowed (file_format f)) eqn:Hfmt;
        [destruct (rejects env (MediaUpload f)) eqn:Hup;
         [|destruct (rejects env GetProducts) eqn:Hget]|].
      * unfold_api. rewrite Hf. simpl. rewrite Hup. simpl.
        split; [done|]. split; [by trace_of|].
        intros Hok. destruct (Hok f eq_refl); congruence.
      * unfold_api. rewrite Hf. simpl. rewrite Hup, Hfmt. simpl.
        rewrite Hget. simpl. split; [done|]. split; [by trace_of|done].
      * pose proof (update_missing_run env req w f Hp Hf Hfmt Hup Hget _ eq_refl)
          as Hrun.
        rewrite Hrun.
        destruct (rejects env (UpdateProduct _ _)) eqn:Hupd; simpl.
        -- split; [done|]. split; [by trace_of|]. intros _ _.
           split; [by trace_of|congruence].
        -- split; [done|]. split; [by trace_of|]. intros _ _.
           split; [by trace_of|done].
      * unfold_api. rewrite Hf. simpl.
        destruct (rejects env (MediaUpload f)); simpl; rewrite ?Hfmt; simpl.
        -- split; [done|]. split; [by trace_of|].
           intros Hok. destruct (Hok f eq_refl); congruence.
        -- split; [done|]. split; [by trace_of|].
           intros Hok. destruct (Hok f eq_refl); congruence.
    + destruct (rejects env GetProducts) eqn:Hget.
      * unfold_api. rewrite Hf. simpl. rewrite Hget. simpl.
        split; [done|]. split; [by trace_of|done].
      * pose proof (update_plain_run env req w Hf Hget _ eq_refl) as Hrun.
        rewrite Hrun. unfold uploaded_url. rewrite Hf. simpl.
        destruct (rejects env (UpdateProduct _ _)) eqn:Hupd; simpl.
        -- split; [done|]. split; [by trace_of|]. intros _ _.
           split; [by trace_of|congruence].
        -- split; [done|]. split; [by trace_of|]. intros _ _.
           split; [by trace_of|done].
  - destruct (image req) as [f|] eqn:Hf.
    + destruct (is_allowed (file_format f)) eqn:Hfmt;
        [destruct (rejects env (MediaUpload f)) eqn:Hup|].
      * unfold_api. rewrite Hf. simpl. rewrite Hup. simpl.
        split; [done|]. split; [by trace_of|].
        intros Hok. destruct (Hok f eq_refl); congruence.
      * rewrite (basic_update_image_run env req w f Hf Hfmt Hup _ eq_refl).
        destruct (rejects env (UpdateProduct _ _)) eqn:Hupd; simpl.
        -- split; [done|]. split; [by trace_of|]. intros _ _.
           split; [by trace_of|congruence].
        -- split; [done|]. split; [by trace_of|]. intros _ _.
           split; [by trace_of|done].
      * unfold_api. rewrite Hf. simpl.
        destruct (rejects env (MediaUpload f)); simpl; rewrite ?Hfmt; simpl.
        -- split; [done|]. split; [by trace_of|].
           intros Hok. destruct (Hok f eq_refl); congruence.
        -- split; [done|]. split; [by trace_of|].
           intros Hok. destruct (Hok f eq_refl); congruence.
    + rewrite (basic_update_plain_run env req w Hf _ eq_refl).
      unfold uploaded_url. rewrite Hf. simpl.
      destruct (rejects env (UpdateProduct _ _)) eqn:Hupd; simpl.
      * split; [done|]. split; [by trace_of|]. intros _ _.
        split; [by trace_of|congruence].
      * split; [done|]. split; [by trace_of|]. intros _ _.
        split; [by trace_of|done].
Qed.

(** Nothing changes in the collection, and without an image the media
    store is not contacted. *)
Lemma update_missing_unchanged env req w :
  db w !! params_id req = None ->
  db (snd (Catalog.update env req w)) = db w /\
  db (snd (Basic.update env req w)) = db w.
Proof.
  intros Hp. split; unfold_api; destruct (image req); simpl;
    repeat (first [ rewrite find_by_id_lookup, Hp
                  | match goal with
                    | |- context [rejects ?e ?x] => destruct (rejects e x) eqn:?
                    | |- context [is_allowed ?x] => destruct (is_allowed x) eqn:?
                    end ]; simpl);
    rewrite ?alter_id' by done; done.
Qed.

Lemma update_without_image_no_media env req w :
  image req = None ->
  filter is_media (issued_by w (snd (Catalog.update env req w))) = [] /\
  filter is_media (issued_by w (snd (Basic.update env req w))) = [].
Proof.
  intros Hf. split; unfold_api; rewrite Hf; simpl;
    repeat (match goal with
            | |- context [rejects ?e ?x] => destruct (rejects e x) eqn:?
            | |- context [find_by_id ?i ?l] =>
                destruct (find_by_id i l) as [[? ?]|] eqn:?
            end; simpl);
    by trace_of.
Qed.

(** What Update does for an id that matches no product, in both routers
    (the plain one does not list): it is not answered with 404; it issues
    no media-store deletion, and without an attached image no media-store
    call at all; the collection is left as it was; and once the upload of
    its image (if any) and the listing went through, it issues the
    persistence update for that id all the same, as its only write, and
    answers 200 "Product updated" when that call returns. *)
Theorem update_missing_is_served env req w :
  db w !! params_id req = None ->
  let data := submitted req (uploaded_url env req) in
  let served (r : Response * World) :=
    status (fst r) <> 404 /\
    filter is_destroy (issued_by w (snd r)) = [] /\
    (image req = None -> filter is_media (issued_by w (snd r)) = []) /\
    db (snd r) = db w /\
    ((forall f, image req = Some f ->
        is_allowed (file_format f) = true /\ rejects env (MediaUpload f) = false) ->
     rejects env GetProducts = false ->
     filter is_write (issued_by w (snd r)) = [UpdateProduct (params_id req) data] /\
     (rejects env (UpdateProduct (params_id req) data) = false ->
      fst r = {| status := 200; json := JsonResult "Product updated" Acknowledged |})) in
  served (Catalog.update env req w) /\ served (Basic.update env req w).
Proof.
  intros Hp data served. subst data served. simpl.
  destruct (update_missing_calls env req w Hp) as [(A1 & A2 & A3) (B1 & B2 & B3)].
  destruct (update_missing_unchanged env req w Hp) as [A4 B4].
  split.
  - split; [exact A1|]. split; [exact A2|].
    split; [intros Hf; exact (proj1 (update_without_image_no_media env req w Hf))|].
    split; [exact A4|exact A3].
  - split; [exact B1|]. split; [exact B2|].
    split; [intros Hf; exact (proj2 (update_without_image_no_media env req w Hf))|].
    split; [exact B4|exact B3].
Qed.

(** C2, as the code has it: on an existing product with a stored image, a
    media-store deletion that rejects is fatal to the Delete and to the
    Update that carries a new image: the catch-all of the handler answers
    500, and the persistence deletion or update is never issued, so the
    collection is left as it was. *)
Theorem media_failure_is_fatal env w p u rd ru f :
  db w !! params_id rd = Some p ->
  params_id ru = params_id rd ->
  imageUrl p = Some u ->
  Js.truthy (Some u) = true ->
  image ru = Some f ->
  is_allowed (file_format f) = true ->
  rejects env (MediaUpload f) = false ->
  rejects env GetProducts = false ->
  rejects env (MediaDestroy (getPublicIdFromUrl u)) = true ->
  let d := Catalog.delete env rd w in
  let r := Catalog.update env ru w in
  (fst d = {| status := 500; json := JsonMessage "Error deleting product" |} /\
   filter is_write (issued_by w (snd d)) = [] /\
   db (snd d) = db w) /\
  (fst r = {| status := 500; json := JsonMessage "Error updating product" |} /\
   filter is_write (issued_by w (snd r)) = [] /\
   db (snd r) = db w).
Proof.
  intros Hp Hid Hu Htruthy Hf Hfmt Hup Hget Hdestroy d r. subst d r. split.
  - rewrite (delete_existing_run env rd w p u Hp Hu Htruthy Hget _ _
               Hdestroy eq_refl).
    simpl. split; [done|]. split; [by trace_of|done].
  - rewrite <- Hid in Hp.
    rewrite (update_existing_run env ru w p u f Hp Hu Htruthy Hf Hfmt Hup Hget
               _ _ Hdestroy eq_refl).
    simpl. split; [done|]. split; [by trace_of|done].
Qed.

(** C4, as the code has it: Create checks the presence of the image and
    nothing else. Without an image it answers 400 "Image is required" and
    touches nothing; with one, once the upload and the insertion went
    through, it answers 201 and stores the name, the description and
    [Number(price)] as they were submitted, whatever they are, under a new
    id with the URL of the uploaded asset. What every request served keeps
    is the [imageUrl] part of the invariant: if every stored product had a
    non-empty [imageUrl] before, every stored product has one after. *)
Theorem create_checks_image_only env req w :
  (image req = None ->
   Catalog.create env req w =
     ({| status := 400; json := JsonMessage "Image is required" |}, w)) /\
  (forall f, image req = Some f ->
     is_allowed (file_format f) = true ->
     rejects env (MediaUpload f) = false ->
     rejects env (InsertProduct (submitted req (uploaded_url env req))) = false ->
     let r := Catalog.create env req w in
     let stored := (fresh (issued w), submitted req (uploaded_url env req)) in
     fst r = {| status := 201; json := JsonProduct "Product created" stored |} /\
     db (snd r) = <[stored.1 := stored.2]> (db w) /\
     Js.truthy (imageUrl stored.2) = true) /\
  (forall h, image_invariant w -> image_invariant (snd (serve env h w))).
Proof.
  split; [|split].
  - intros Hf. unfold_api. by rewrite Hf.
  - intros f Hf Hfmt Hup. unfold uploaded_url, submitted. rewrite Hf. simpl.
    intros Hins. unfold_api. rewrite Hf. simpl. rewrite Hup, Hfmt. simpl.
    rewrite Hins. simpl. split; [done|]. split; [done|].
    exact (truthy_append (delivery env)
             (folder +:+ "/" +:+ asset_name env f +:+ "." +:+ file_format f)
             slash).
  - intros h. apply image_invariant_kept.
Qed.

(** ** The theorems at work on the sample shop *)

Lemma upload_roundtrip_witness :
  getPublicIdFromUrl
    "https://res.cloudinary.com/demo/image/upload/v2/store-products/mug2.png"
  = "store-products/mug2".
Proof.
  exact (proj1 (upload_roundtrip Sample.up Sample.photo Sample.shop _ _
                  eq_refl eq_refl eq_refl)).
Defined.

Lemma create_without_image_witness :
  Catalog.create Sample.up (Sample.reprice "") Sample.shop
  = ({| status := 400; json := JsonMessage "Image is required" |}, Sample.shop).
Proof.
  exact (proj1 (create_without_image Sample.up (Sample.reprice "") Sample.shop
                  eq_refl)).
Defined.

Lemma delete_missing_not_found_witness :
  fst (Catalog.delete Sample.up (Sample.reprice "nope") Sample.shop)
  = {| status := 404; json := JsonMessage "Product not found" |}.
Proof.
  pose proof (delete_missing_not_found Sample.up (Sample.reprice "nope")
                Sample.shop eq_refl) as (_ & _ & _ & H).
  exact (H eq_refl).
Defined.

Lemma delete_without_image_witness :
  fst (Catalog.delete Sample.up (Sample.reprice "p2") Sample.bare_shop)
  = {| status := 200;
       json := JsonResult "Product and associated image deleted" Acknowledged |} /\
  filter is_media
    (issued_by Sample.bare_shop
       (snd (Catalog.delete Sample.up (Sample.reprice "p2") Sample.bare_shop))) = [].
Proof.
  pose proof (delete_without_image Sample.up (Sample.reprice "p2")
                Sample.bare_shop Sample.bare eq_refl eq_refl) as [H1 H2].
  split; [exact (proj1 (H2 eq_refl eq_refl))|exact H1].
Defined.

Lemma delete_removes_product_witness :
  filter is_media
    (issued_by Sample.shop
       (snd (Catalog.delete Sample.up (Sample.reprice "p1") Sample.shop)))
  = [MediaDestroy "store-products/mug1"] /\
  status (fst (Catalog.delete Sample.up (Sample.reprice "p1") Sample.shop)) = 200 /\
  forall d,
    d ∈ listed (fst (Catalog.list_all Sample.up
                       (serve_all [(Sample.up, POST Sample.blank)]
                          (snd (Catalog.delete Sample.up (Sample.reprice "p1")
                                  Sample.shop))))) ->
    d.1 <> "p1".
Proof.
  pose proof (delete_removes_product Sample.up (Sample.reprice "p1") Sample.shop
                Sample.mug Sample.mug_url eq_refl eq_refl eq_refl eq_refl)
    as [H1 H2].
  destruct (H2 eq_refl eq_refl) as (H3 & _ & H4).
  split; [exact H1|]. split; [exact H3|].
  apply H4. unfold well_formed, Sample.shop. simpl.
  rewrite dom_singleton_L. reflexivity.
Defined.

Lemma update_with_image_witness :
  filter is_destroy
    (issued_by Sample.shop
       (snd (Catalog.update Sample.up (Sample.rephoto "p1") Sample.shop)))
  = [MediaDestroy "store-products/mug1"] /\
  status (fst (Catalog.update Sample.up (Sample.rephoto "p1") Sample.shop)) = 200.
Proof.
  pose proof (update_with_image Sample.up (Sample.rephoto "p1") Sample.shop
                Sample.mug Sample.mug_url Sample.photo
                eq_refl eq_refl eq_refl eq_refl eq_refl eq_refl eq_refl)
    as [H1 H2].
  split; [exact H1|exact (proj1 (H2 eq_refl eq_refl))].
Defined.

Lemma update_without_image_witness :
  filter is_media
    (issued_by Sample.shop
       (snd (Catalog.update Sample.up (Sample.reprice "p1") Sample.shop))) = [] /\
  status (fst (Catalog.update Sample.up (Sample.reprice "p1") Sample.shop)) = 200.
Proof.
  pose proof (update_without_image Sample.up (Sample.reprice "p1") Sample.shop
                Sample.mug eq_refl eq_refl) as [(H1 & _ & H3) _].
  split; [exact H1|exact (proj1 (H3 eq_refl eq_refl))].
Defined.

Lemma update_missing_is_served_witness :
  status (fst (Catalog.update Sample.up (Sample.reprice "nope") Sample.shop)) <> 404 /\
  filter is_destroy
    (issued_by Sample.shop
       (snd (Catalog.update Sample.up (Sample.reprice "nope") Sample.shop))) = [].
Proof.
  pose proof (update_missing_is_served Sample.up (Sample.reprice "nope")
                Sample.shop eq_refl) as [(H1 & H2 & _) _].
  split; [exact H1|exact H2].
Defined.

Lemma media_failure_is_fatal_witness :
  fst (Catalog.delete Sample.destroy_down (Sample.reprice "p1") Sample.shop)
  = {| status := 500; json := JsonMessage "Error deleting product" |} /\
  fst (Catalog.update Sample.destroy_down (Sample.rephoto "p1") Sample.shop)
  = {| status := 500; json := JsonMessage "Error updating product" |}.
Proof.
  pose proof (media_failure_is_fatal Sample.destroy_down Sample.shop Sample.mug
                Sample.mug_url (Sample.reprice "p1") (Sample.rephoto "p1")
                Sample.photo
                eq_refl eq_refl eq_refl eq_refl eq_refl eq_refl eq_refl eq_refl
                eq_refl) as [(H1 & _) (H2 & _)].
  split; [exact H1|exact H2].
Defined.

Lemma create_checks_image_only_witness :
  status (fst (Catalog.create Sample.up Sample.blank Sample.shop)) = 201 /\
  image_invariant (snd (Catalog.create Sample.up Sample.blank Sample.shop)).
Proof.
  pose proof (create_checks_image_only Sample.up Sample.blank Sample.shop)
    as (_ & H2 & H3).
  split.
  - destruct (H2 Sample.photo eq_refl eq_refl eq_refl eq_refl) as (H & _).
    exact (f_equal status H).
  - apply (H3 (POST Sample.blank)).
    intros id p. unfold Sample.shop; simpl.
    destruct (decide (id = "p1")) as [->|Hne].
    + rewrite lookup_singleton_eq. intros [= <-]. reflexivity.
    + rewrite lookup_singleton_ne by done. discriminate.
Defined.

(** ** Where the code departs from the specification *)

(** Against C2: the mug exists and has an image, the media store rejects
    the deletion of its asset; the Delete answers 500 and the record is
    still there, and so does, and is, for the Update with a new photo. *)
Lemma media_failure_not_swallowed :
  let d := Catalog.delete Sample.destroy_down (Sample.reprice "p1") Sample.shop in
  let r := Catalog.update Sample.destroy_down (Sample.rephoto "p1") Sample.shop in
  db Sample.shop !! "p1" = Some Sample.mug /\
  rejects Sample.destroy_down (MediaDestroy "store-products/mug1") = true /\
  rejects Sample.destroy_down GetProducts = false /\
  rejects Sample.destroy_down (DeleteProduct "p1") = false /\
  status (fst d) = 500 /\ db (snd d) !! "p1" = Some Sample.mug /\
  status (fst r) = 500 /\ db (snd r) !! "p1" = Some Sample.mug.
Proof. vm_compute. repeat split. Qed.

(** C3 fails on the code: no product has the id [nope] and every
    collaborator answers; the Update lists the collection, finds nothing,
    issues the persistence update all the same and is answered with 200
    "Product updated", not with 404, the collection being left as it was;
    the Delete of the same id, after the same lookup, is answered with 404
    "Product not found". *)
Lemma update_missing_answers_200 :
  let r := Catalog.update Sample.up (Sample.reprice "nope") Sample.shop in
  let d := Catalog.delete Sample.up (Sample.reprice "nope") Sample.shop in
  db Sample.shop !! "nope" = None /\
  fst r = {| status := 200; json := JsonResult "Product updated" Acknowledged |} /\
  issued_by Sample.shop (snd r)
  = [GetProducts; UpdateProduct "nope" (submitted (Sample.reprice "nope") None)] /\
  db (snd r) = db Sample.shop /\
  fst d = {| status := 404; json := JsonMessage "Product not found" |} /\
  issued_by Sample.shop (snd d) = [GetProducts].
Proof. vm_compute. repeat split. Qed.

(** Against C4: a form with an empty name, an empty description and no
    price, and a photo; the Create answers 201 and the collection then
    holds a product that breaks the invariant. *)
Lemma create_accepts_blank_fields :
  let r := Catalog.create Sample.up Sample.blank Sample.shop in
  status (fst r) = 201 /\
  exists id p, db (snd r) !! id = Some p /\ name p = Some "" /\
               price p = Some (Number None) /\ ~ valid_product p.
Proof.
  split; [reflexivity|].
  exists (fresh (issued Sample.shop)), (submitted Sample.blank (uploaded_url Sample.up Sample.blank)).
  split; [by vm_compute|]. split; [reflexivity|]. split; [reflexivity|].
  intros (H & _). discriminate H.
Qed.

(** The cut at the first ['.'] is not the stripping of the extension when
    the file name has two dots, which the names of [upload_roundtrip] have
    not. *)
Example getPublicIdFromUrl_two_dots :
  getPublicIdFromUrl "https://cdn/store-products/mug.v2.jpg" = "store-products/mug" /\
  deriveIdentifier "https://cdn/store-products/mug.v2.jpg" = "store-products/mug.v2".
Proof. split; reflexivity. Qed.

Example getPublicIdFromUrl_golden :
  getPublicIdFromUrl Sample.mug_url = "store-products/mug1".
Proof. reflexivity. Qed.

(** * Further properties of the router *)

(** ** The derived public id, for any URL *)

Lemma append_empty_r (s : string) : s +:+ EmptyString = s.
Proof. induction s as [|c s IH]; [done|]. by rewrite append_cons, IH. Qed.

Lemma split_segments_clean (sep : ascii) (s : string) :
  Forall (fun seg => Js.occurs sep seg = false) (Js.split sep s).
Proof.
  induction s as [|c s IH]; simpl; [by repeat constructor|].
  destruct (Ascii.eqb c sep) eqn:E; [by constructor|].
  destruct (Js.split sep s) as [|seg rest] eqn:Es;
    [by destruct (split_not_nil sep s)|].
  inversion IH as [|? ? Hseg Hrest]; subst.
  constructor; [|done]. simpl. by rewrite E, Hseg.
Qed.

Lemma last_Forall {A} (P : A -> Prop) (l : list A) (d : A) :
  l <> [] -> Forall P l -> P (List.last l d).
Proof.
  induction l as [|x l IH]; [done|]. intros _ H.
  inversion H as [|? ? Hx Hl]; subst. destruct l as [|y l]; [done|].
  apply IH; [done|exact Hl].
Qed.

Lemma hd_Forall {A} (P : A -> Prop) (l : list A) (d : A) :
  l <> [] -> Forall P l -> P (List.hd d l).
Proof. destruct l; [done|]. intros _ H. by inversion H. Qed.

(** A character of the first segment is a character of the string. *)
Lemma hd_split_occurs (sep c : ascii) (s : string) :
  Js.occurs c s = false ->
  Js.occurs c (List.hd EmptyString (Js.split sep s)) = false.
Proof.
  induction s as [|x s IH]; simpl; [done|].
  intros [Hx Hs]%orb_false_iff. specialize (IH Hs).
  destruct (Ascii.eqb x sep); [done|].
  destruct (Js.split sep s) as [|seg rest]; simpl in *; [by rewrite Hx|].
  by rewrite Hx, IH.
Qed.

Lemma last_split_no_occurrence (sep : ascii) (s : string) :
  Js.occurs sep s = false -> List.last (Js.split sep s) EmptyString = s.
Proof. intros H. by rewrite split_no_occurrence. Qed.

(** The name in front of an empty tail or of a tail that starts with a dot. *)
Lemma hd_split_dot_tail (n t : string) :
  Js.occurs dot n = false ->
  t = EmptyString \/ (exists t', t = String dot t') ->
  List.hd EmptyString (Js.split dot (n +:+ t)) = n.
Proof.
  intros Hn [->|[t' ->]].
  - by rewrite append_empty_r, split_no_occurrence.
  - by apply hd_split_app.
Qed.

Lemma derive_of_segment (n t : string) :
  Js.occurs slash n = false -> Js.occurs dot n = false ->
  Js.occurs slash t = false ->
  t = EmptyString \/ (exists t', t = String dot t') ->
  getPublicIdFromUrl (n +:+ t) = "store-products/" +:+ n.
Proof.
  intros Hs Hd Ht Htail. unfold getPublicIdFromUrl.
  rewrite last_split_no_occurrence by (by rewrite occurs_app, Hs, Ht).
  by rewrite hd_split_dot_tail.
Qed.

Lemma derive_of_path (p n t : string) :
  Js.occurs slash n = false -> Js.occurs dot n = false ->
  Js.occurs slash t = false ->
  t = EmptyString \/ (exists t', t = String dot t') ->
  getPublicIdFromUrl (p +:+ String slash (n +:+ t)) = "store-products/" +:+ n.
Proof.
  intros Hs Hd Ht Htail. unfold getPublicIdFromUrl.
  rewrite last_split_app.
  rewrite last_split_no_occurrence by (by rewrite occurs_app, Hs, Ht).
  by rewrite hd_split_dot_tail.
Qed.

(** X1: whatever the URL, the derived public id is a direct child of the
    folder: the literal prefix followed by a name with no ['/'] and no
    ['.']; hence deriving again from a derived id changes nothing. *)
Theorem getPublicIdFromUrl_shape (u : string) :
  (exists n, getPublicIdFromUrl u = "store-products/" +:+ n /\
             Js.occurs slash n = false /\ Js.occurs dot n = false) /\
  getPublicIdFromUrl (getPublicIdFromUrl u) = getPublicIdFromUrl u.
Proof.
  set (n := List.hd EmptyString
              (Js.split dot (List.last (Js.split slash u) EmptyString))).
  assert (Hslash : Js.occurs slash n = false).
  { apply hd_split_occurs.
    apply (last_Forall (fun seg => Js.occurs slash seg = false));
      [apply split_not_nil|apply split_segments_clean]. }
  assert (Hdot : Js.occurs dot n = false).
  { apply (hd_Forall (fun seg => Js.occurs dot seg = false));
      [apply split_not_nil|apply split_segments_clean]. }
  split; [by exists n|].
  change (getPublicIdFromUrl u) with ("store-products" +:+ String slash n).
  rewrite <- (append_empty_r n) at 1.
  rewrite derive_of_path by auto. done.
Qed.

(** X2: only the last path segment up to its first ['.'] counts. Whatever
    precedes the last ['/'] (host, version, another folder) and whatever
    follows the first ['.'] of the file name (the extension, further
    dots) is ignored, with or without a path in front. *)
Theorem getPublicIdFromUrl_last_segment (p n t : string) :
  Js.occurs slash n = false -> Js.occurs dot n = false ->
  Js.occurs slash t = false ->
  t = EmptyString \/ (exists t', t = String dot t') ->
  getPublicIdFromUrl (p +:+ "/" +:+ n +:+ t) = "store-products/" +:+ n /\
  getPublicIdFromUrl (n +:+ t) = "store-products/" +:+ n.
Proof.
  intros Hs Hd Ht Htail. split.
  - by apply (derive_of_path p n t).
  - by apply derive_of_segment.
Qed.

Lemma getPublicIdFromUrl_last_segment_witness :
  getPublicIdFromUrl "https://cdn.example/v9/other-folder/mug.v2.jpg"
  = "store-products/mug" /\
  getPublicIdFromUrl "mug.v2.jpg" = "store-products/mug".
Proof.
  apply (getPublicIdFromUrl_last_segment "https://cdn.example/v9/other-folder"
           "mug" ".v2.jpg"); [reflexivity..|].
  right. by exists "v2.jpg".
Defined.

(** ** Handlers, path by path *)

(** Split on every decision a handler or a collaborator takes. *)
Ltac crunch :=
  repeat (simpl;
    match goal with
    | |- context [image ?r] => destruct (image r) eqn:?
    | |- context [rejects ?e ?x] => destruct (rejects e x) eqn:?
    | |- context [is_allowed ?x] => destruct (is_allowed x) eqn:?
    | |- context [find_by_id ?i ?l] => destruct (find_by_id i l) as [[? ?]|] eqn:?
    | |- context [imageUrl ?p] => destruct (imageUrl p) eqn:?
    | |- context [Js.truthy ?x] => destruct (Js.truthy x) eqn:?
    end).

Lemma create_run env req w f :
  image req = Some f ->
  is_allowed (file_format f) = true ->
  rejects env (MediaUpload f) = false ->
  forall b,
    rejects env (InsertProduct (submitted req (uploaded_url env req))) = b ->
    Catalog.create env req w =
      if b then
        ({| status := 500; json := JsonMessage "Error creating product" |},
         {| db := db w; issued := issued w;
            trace := trace w ++ [MediaUpload f;
                                 InsertProduct (submitted req (uploaded_url env req))] |})
      else
        ({| status := 201;
            json := JsonProduct "Product created"
                      (fresh (issued w), submitted req (uploaded_url env req)) |},
         {| db := <[fresh (issued w) := submitted req (uploaded_url env req)]> (db w);
            issued := {[fresh (issued w)]} ∪ issued w;
            trace := trace w ++ [MediaUpload f;
                                 InsertProduct (submitted req (uploaded_url env req))] |}).
Proof.
  intros Hf Hfmt Hup b. unfold uploaded_url, submitted. rewrite Hf. simpl.
  intros H. unfold_api. rewrite Hf. simpl. rewrite Hup, Hfmt. simpl.
  rewrite H. destruct b; simpl; same_world.
Qed.

Lemma delete_missing_run env req w :
  db w !! params_id req = None ->
  rejects env GetProducts = false ->
  Catalog.delete env req w =
    ({| status := 404; json := JsonMessage "Product not found" |},
     {| db := db w; issued := issued w; trace := trace w ++ [GetProducts] |}).
Proof.
  intros Hp Hget. unfold_api. simpl. rewrite Hget. simpl.
  by rewrite find_by_id_lookup, Hp.
Qed.

Lemma delete_answered_200 env req w :
  status (fst (Catalog.delete env req w)) = 200 ->
  db (snd (Catalog.delete env req w)) = delete (params_id req) (db w).
Proof. unfold_api. crunch; simpl; intros H; done. Qed.

Lemma uploaded_url_Some env req f :
  image req = Some f ->
  uploaded_url env req
  = Some (url (issued_asset (delivery env) (asset_name env f) (file_format f))).
Proof. intros H. unfold uploaded_url. by rewrite H. Qed.

Lemma issued_url_truthy delivery0 name0 fmt :
  Js.truthy (Some (url (issued_asset delivery0 name0 fmt))) = true.
Proof.
  exact (truthy_append delivery0 (folder +:+ "/" +:+ name0 +:+ "." +:+ fmt) slash).
Qed.

(** X3: listing reads and never writes: the handler issues the one call
    [getProducts] and leaves the collection as it was; it answers 500
    "Error fetching products" when that call rejects, and otherwise 200
    with what the call returned, every stored product once. *)
Theorem list_is_read_only env w :
  let r := Catalog.list_all env w in
  issued_by w (snd r) = [GetProducts] /\
  db (snd r) = db w /\
  (rejects env GetProducts = true ->
   fst r = {| status := 500; json := JsonMessage "Error fetching products" |}) /\
  (rejects env GetProducts = false ->
   status (fst r) = 200 /\
   (forall id p, (id, p) ∈ listed (fst r) <-> db w !! id = Some p) /\
   NoDup (listed (fst r)).*1).
Proof.
  unfold_api. simpl. destruct (rejects env GetProducts); simpl.
  - split; [by trace_of|]. done.
  - split; [by trace_of|]. split; [done|]. split; [done|]. intros _.
    split; [done|]. split.
    + intros id p. apply elem_of_map_to_list.
    + apply NoDup_fst_map_to_list.
Qed.

(** X4: the plain router's Delete looks nothing up: its only call is
    [deleteProduct], so the image of the product is never removed from the
    media store and an id that matches no product is never answered with
    404; the answer is 200 "Product deleted" when the call returns and 500
    otherwise. *)
Theorem plain_delete_is_blind env req w :
  let r := Basic.delete env req w in
  issued_by w (snd r) = [DeleteProduct (params_id req)] /\
  (rejects env (DeleteProduct (params_id req)) = false ->
   fst r = {| status := 200; json := JsonResult "Product deleted" Acknowledged |} /\
   db (snd r) = delete (params_id req) (db w)) /\
  (rejects env (DeleteProduct (params_id req)) = true ->
   fst r = {| status := 500; json := JsonMessage "Error deleting product" |} /\
   db (snd r) = db w).
Proof.
  unfold_api. simpl. destruct (rejects env (DeleteProduct _)); simpl.
  - split; [by trace_of|]. done.
  - split; [by trace_of|]. done.
Qed.

(** X5: the plain router's Update with a new image replaces the stored
    [imageUrl] and never removes the previous asset: its calls are the
    upload and the persistence update, and nothing else. *)
Theorem plain_update_keeps_old_asset env req w p f :
  db w !! params_id req = Some p ->
  image req = Some f ->
  is_allowed (file_format f) = true ->
  rejects env (MediaUpload f) = false ->
  let a := issued_asset (delivery env) (asset_name env f) (file_format f) in
  let data := submitted req (Some (url a)) in
  let r := Basic.update env req w in
  issued_by w (snd r) = [MediaUpload f; UpdateProduct (params_id req) data] /\
  (rejects env (UpdateProduct (params_id req) data) = false ->
   status (fst r) = 200 /\
   db (snd r) !! params_id req = Some (merge_fields data p) /\
   imageUrl (merge_fields data p) = Some (url a)).
Proof.
  intros Hp Hf Hfmt Hup a data r. subst a data r.
  pose proof (basic_update_image_run env req w f Hf Hfmt Hup _ eq_refl) as Hrun.
  rewrite (uploaded_url_Some env req f Hf) in Hrun. rewrite Hrun.
  destruct (rejects env (UpdateProduct _ _)); simpl.
  - split; [by trace_of|done].
  - split; [by trace_of|]. intros _. split; [done|].
    by rewrite lookup_alter_eq, Hp.
Qed.

(** X6: when the insertion rejects after the image was uploaded, Create
    answers 500 "Error creating product", stores nothing, and issues no
    media-store deletion: the uploaded asset stays behind. *)
Theorem create_failure_leaves_asset env req w f :
  image req = Some f ->
  is_allowed (file_format f) = true ->
  rejects env (MediaUpload f) = false ->
  rejects env (InsertProduct (submitted req (uploaded_url env req))) = true ->
  let r := Catalog.create env req w in
  fst r = {| status := 500; json := JsonMessage "Error creating product" |} /\
  db (snd r) = db w /\
  issued_by w (snd r)
  = [MediaUpload f; InsertProduct (submitted req (uploaded_url env req))].
Proof.
  intros Hf Hfmt Hup Hins r. subst r.
  rewrite (create_run env req w f Hf Hfmt Hup _ Hins). simpl.
  split; [done|]. split; [done|]. by trace_of.
Qed.

(** X7: when the upload of the attached image fails, because the format is
    not among [allowed_formats] or because the media store rejects, the
    handler of Create and of Update never runs: the upload is the only
    call, the collection is untouched and the answer is the framework's
    500, not the handler's message. So it is in both routers. *)
Theorem upload_failure_stops_request env req w f :
  image req = Some f ->
  is_allowed (file_format f) = false \/ rejects env (MediaUpload f) = true ->
  let stopped (r : Response * World) :=
    fst r = {| status := 500; json := ErrorPage |} /\
    issued_by w (snd r) = [MediaUpload f] /\
    db (snd r) = db w in
  stopped (Catalog.create env req w) /\ stopped (Catalog.update env req w) /\
  stopped (Basic.update env req w).
Proof.
  intros Hf Hfail stopped. subst stopped. simpl.
  unfold_api. rewrite Hf. simpl.
  destruct Hfail as [Hfmt|Hup].
  - rewrite Hfmt. destruct (rejects env (MediaUpload f)); simpl;
      (split; [|split]); (split; [done|]); (split; [by trace_of|done]).
  - rewrite Hup. simpl.
    (split; [|split]); (split; [done|]); (split; [by trace_of|done]).
Qed.

(** ** Operations in sequence *)

(** X8: the asset that a Create uploaded is the one that the Delete of the
    created product removes: the Delete's only media-store call is the
    deletion of the identifier the store gave that asset. *)
Theorem create_then_delete env env' req rd w f :
  image req = Some f ->
  is_allowed (file_format f) = true ->
  rejects env (MediaUpload f) = false ->
  rejects env (InsertProduct (submitted req (uploaded_url env req))) = false ->
  Js.occurs slash (asset_name env f) = false ->
  Js.occurs dot (asset_name env f) = false ->
  params_id rd = fresh (issued w) ->
  rejects env' GetProducts = false ->
  let a := issued_asset (delivery env) (asset_name env f) (file_format f) in
  let c := Catalog.create env req w in
  let d := Catalog.delete env' rd (snd c) in
  fst c = {| status := 201;
             json := JsonProduct "Product created"
                       (params_id rd, submitted req (Some (url a))) |} /\
  filter is_media (issued_by (snd c) (snd d)) = [MediaDestroy (identifier a)].
Proof.
  intros Hf Hfmt Hup Hins Hs Hd Hid Hget a c d. subst a c d.
  rewrite (create_run env req w f Hf Hfmt Hup _ Hins).
  rewrite (uploaded_url_Some env req f Hf).
  destruct (allowed_format_no_slash _ Hfmt) as [Hfs _].
  pose proof (getPublicIdFromUrl_issued (delivery env) (asset_name env f)
                (file_format f) Hs Hd Hfs) as Hgp.
  pose proof (issued_url_truthy (delivery env) (asset_name env f)
                (file_format f)) as Ht.
  remember (issued_asset (delivery env) (asset_name env f) (file_format f))
    as a eqn:Ha.
  simpl. split; [by rewrite Hid|].
  match goal with |- context [Catalog.delete env' rd ?w1] =>
    pose proof (delete_existing_run env' rd w1
                  (submitted req (Some (url a))) (url a)
                  ltac:(simpl; rewrite Hid; apply lookup_insert_eq)
                  eq_refl Ht Hget _ _ eq_refl eq_refl)
      as Hrun
  end.
  rewrite Hrun, Hgp. clear Hrun.
  destruct (rejects env' (MediaDestroy (identifier a))),
    (rejects env' (DeleteProduct (params_id rd)));
    simpl; unfold issued_by; simpl; by rewrite drop_app_length.
Qed.

(** X9: after an Update replaced the image, the Delete of the product
    removes the new asset, not the previous one: its only media-store call
    is the deletion of the identifier of the asset the Update uploaded. *)
Theorem update_then_delete env env' req rd w p u f :
  db w !! params_id req = Some p ->
  imageUrl p = Some u ->
  Js.truthy (Some u) = true ->
  image req = Some f ->
  is_allowed (file_format f) = true ->
  rejects env (MediaUpload f) = false ->
  rejects env GetProducts = false ->
  rejects env (MediaDestroy (getPublicIdFromUrl u)) = false ->
  rejects env (UpdateProduct (params_id req)
                 (submitted req (uploaded_url env req))) = false ->
  Js.occurs slash (asset_name env f) = false ->
  Js.occurs dot (asset_name env f) = false ->
  params_id rd = params_id req ->
  rejects env' GetProducts = false ->
  let a := issued_asset (delivery env) (asset_name env f) (file_format f) in
  let r := Catalog.update env req w in
  let d := Catalog.delete env' rd (snd r) in
  filter is_media (issued_by (snd r) (snd d)) = [MediaDestroy (identifier a)].
Proof.
  intros Hp Hu Htruthy Hf Hfmt Hup Hget Hdes Hupd Hs Hd Hid Hget' a r d.
  subst a r d.
  rewrite (update_existing_run env req w p u f Hp Hu Htruthy Hf Hfmt Hup Hget
             _ _ Hdes Hupd).
  rewrite (uploaded_url_Some env req f Hf).
  destruct (allowed_format_no_slash _ Hfmt) as [Hfs _].
  pose proof (getPublicIdFromUrl_issued (delivery env) (asset_name env f)
                (file_format f) Hs Hd Hfs) as Hgp.
  pose proof (issued_url_truthy (delivery env) (asset_name env f)
                (file_format f)) as Ht.
  remember (issued_asset (delivery env) (asset_name env f) (file_format f))
    as a eqn:Ha.
  simpl.
  match goal with |- context [Catalog.delete env' rd ?w1] =>
    pose proof (delete_existing_run env' rd w1
                  (merge_fields (submitted req (Some (url a))) p) (url a)
                  ltac:(simpl; rewrite Hid, lookup_alter_eq, Hp; reflexivity)
                  eq_refl Ht Hget' _ _ eq_refl eq_refl)
      as Hrun
  end.
  rewrite Hrun, Hgp. clear Hrun.
  destruct (rejects env' (MediaDestroy (identifier a))),
    (rejects env' (DeleteProduct (params_id rd)));
    simpl; unfold issued_by; simpl; by rewrite drop_app_length.
Qed.

(** X10: the asset goes before the record. When the media-store deletion
    went through and the persistence call then rejects, the Delete and the
    Update with a new image answer 500 and the record is still the old
    one, with the [imageUrl] whose asset the request has just had
    deleted. *)
Theorem late_failure_leaves_dangling_url env w p u rd ru f :
  db w !! params_id rd = Some p ->
  params_id ru = params_id rd ->
  imageUrl p = Some u ->
  Js.truthy (Some u) = true ->
  image ru = Some f ->
  is_allowed (file_format f) = true ->
  rejects env (MediaUpload f) = false ->
  rejects env GetProducts = false ->
  rejects env (MediaDestroy (getPublicIdFromUrl u)) = false ->
  rejects env (DeleteProduct (params_id rd)) = true ->
  rejects env (UpdateProduct (params_id ru)
                 (submitted ru (uploaded_url env ru))) = true ->
  let d := Catalog.delete env rd w in
  let r := Catalog.update env ru w in
  (status (fst d) = 500 /\
   filter is_media (issued_by w (snd d)) = [MediaDestroy (getPublicIdFromUrl u)] /\
   db (snd d) !! params_id rd = Some p) /\
  (status (fst r) = 500 /\
   filter is_media (issued_by w (snd r))
   = [MediaUpload f; MediaDestroy (getPublicIdFromUrl u)] /\
   db (snd r) !! params_id rd = Some p).
Proof.
  intros Hp Hid Hu Htruthy Hf Hfmt Hup Hget Hdes Hdel Hupd d r. subst d r.
  split.
  - rewrite (delete_existing_run env rd w p u Hp Hu Htruthy Hget _ _ Hdes Hdel).
    simpl. split; [done|]. split; [by trace_of|done].
  - pose proof Hp as Hp'. rewrite <- Hid in Hp'.
    rewrite (update_existing_run env ru w p u f Hp' Hu Htruthy Hf Hfmt Hup Hget
               _ _ Hdes Hupd).
    simpl. split; [done|]. split; [by trace_of|done].
Qed.

(** X11: an Update with a new image on a product that has no stored image
    issues no media-store deletion; when the persistence update returns,
    the answer is 200 and the product has the URL of the uploaded asset. *)
Theorem update_first_image env req w p f :
  db w !! params_id req = Some p ->
  Js.truthy (imageUrl p) = false ->
  image req = Some f ->
  is_allowed (file_format f) = true ->
  rejects env (MediaUpload f) = false ->
  rejects env GetProducts = false ->
  let a := issued_asset (delivery env) (asset_name env f) (file_format f) in
  let data := submitted req (Some (url a)) in
  let r := Catalog.update env req w in
  filter is_media (issued_by w (snd r)) = [MediaUpload f] /\
  (rejects env (UpdateProduct (params_id req) data) = false ->
   status (fst r) = 200 /\
   db (snd r) !! params_id req = Some (merge_fields data p) /\
   imageUrl (merge_fields data p) = Some (url a)).
Proof.
  intros Hp Himg Hf Hfmt Hup Hget a data r. subst a data r.
  unfold submitted. unfold_api. rewrite Hf. simpl. rewrite Hup, Hfmt. simpl.
  rewrite Hget. simpl. rewrite find_by_id_lookup, Hp. simpl.
  destruct (imageUrl p) as [u|] eqn:Hu; simpl; rewrite ?Himg;
    destruct (rejects env (UpdateProduct _ _)); simpl;
    (split; [by trace_of|]); try done;
    intros _; (split; [done|]); by rewrite lookup_alter_eq, Hp; simpl; rewrite ?Hu.
Qed.

(** X12: a Delete that was answered with 200 is final: the same Delete
    again, once the collection could be listed, is answered with 404
    "Product not found" and issues no media-store call and no write. *)
Theorem delete_twice env env' req w :
  status (fst (Catalog.delete env req w)) = 200 ->
  rejects env' GetProducts = false ->
  let w1 := snd (Catalog.delete env req w) in
  let r := Catalog.delete env' req w1 in
  fst r = {| status := 404; json := JsonMessage "Product not found" |} /\
  issued_by w1 (snd r) = [GetProducts] /\
  db (snd r) = db w1.
Proof.
  intros H200 Hget w1 r. subst w1 r.
  pose proof (delete_answered_200 env req w H200) as Hdb.
  rewrite (delete_missing_run env' req _
             ltac:(rewrite Hdb; apply lookup_delete_eq) Hget).
  simpl. split; [done|]. split; [by trace_of|done].
Qed.

(** ** Every request, every path *)

(** X13: the answers of the routes. Listing answers 200 or 500, Create
    201, 400 or 500, Update 200 or 500 and never 404, Delete 200, 404 or
    500; the plain router's Delete never answers 404 either. *)
Theorem route_statuses env req w :
  status (fst (Catalog.list_all env w)) ∈ [200; 500] /\
  status (fst (Catalog.create env req w)) ∈ [201; 400; 500] /\
  status (fst (Catalog.update env req w)) ∈ [200; 500] /\
  status (fst (Catalog.delete env req w)) ∈ [200; 404; 500] /\
  status (fst (Basic.update env req w)) ∈ [200; 500] /\
  status (fst (Basic.delete env req w)) ∈ [200; 500].
Proof.
  repeat split; unfold_api; crunch; simpl;
    repeat first [apply list_elem_of_here | apply list_elem_of_further].
Qed.

(** X14: a request issues at most one persistence write, as its last
    call, at most one upload and at most one media-store deletion, in
    either router. *)
Theorem request_calls env h w :
  let measured (r : Response * World) :=
    let calls := issued_by w (snd r) in
    Forall (fun e => is_write e = false) (removelast calls) /\
    length (filter is_upload calls) <= 1 /\
    length (filter is_destroy calls) <= 1 in
  measured (serve env h w) /\ measured (Basic.serve env h w).
Proof.
  split; destruct h as [|req|req|req]; unfold_api; crunch; simpl; trace_of;
    (split; [simpl; by repeat constructor|]); simpl; lia.
Qed.

(** X15: a request that is not answered with 200 or 201 has not changed
    the collection, and no listing changes it, in either router. *)
Theorem failure_changes_nothing env h w :
  let harmless (r : Response * World) :=
    (status (fst r) <> 200 -> status (fst r) <> 201 -> db (snd r) = db w) /\
    (h = GET -> db (snd r) = db w) in
  harmless (serve env h w) /\ harmless (Basic.serve env h w).
Proof.
  split; destruct h as [|req|req|req]; unfold_api; crunch; simpl;
    (split; [intros H1 H2; first [reflexivity|done]
            |intros H; first [reflexivity|done]]).
Qed.

(** * The listening port *)

Section Port.
Import JsGlobal.

Lemma trim_start_app (ws x : string) :
  trim_start ws = EmptyString ->
  trim_start (ws +:+ x) = trim_start x.
Proof.
  induction ws as [|c ws IH]; [done|]. rewrite append_cons. simpl.
  destruct (is_space c); [exact IH|discriminate].
Qed.

(** A first character that is no white space, no sign and no zero: radix
    10, no sign. *)
Lemma parseInt_plain (c : ascii) (r : string) :
  is_space c = false -> c <> "-"%char -> c <> "+"%char -> c <> "0"%char ->
  parseInt (String c r) = Z.of_N <$> digits 10 None (String c r).
Proof.
  intros Hsp Hm Hp Hz. unfold parseInt.
  change (trim_start (String c r)) with (if is_space c then trim_start r else String c r).
  rewrite Hsp.
  destruct c as [[] [] [] [] [] [] [] []]; try congruence;
    cbv beta iota zeta;
    (destruct (digits 10 None _) as [n|]; [|reflexivity]);
    cbn [fmap option_fmap option_map]; f_equal; lia.
Qed.

Lemma parseInt_minus (c : ascii) (r : string) :
  c <> "0"%char ->
  parseInt (String "-" (String c r))
  = (fun n => (- Z.of_N n)%Z) <$> digits 10 None (String c r).
Proof.
  intros Hz. unfold parseInt.
  change (trim_start (String "-" (String c r))) with (String "-" (String c r)).
  destruct c as [[] [] [] [] [] [] [] []]; try congruence;
    cbv beta iota zeta;
    (destruct (digits 10 None _) as [n|]; [|reflexivity]);
    cbn [fmap option_fmap option_map]; f_equal; lia.
Qed.

Lemma digit_value_pretty (m : N) :
  (m < 10)%N -> digit_value 10 (pretty_N_char m) = Some m.
Proof.
  intros H.
  assert (m = 0 \/ m = 1 \/ m = 2 \/ m = 3 \/ m = 4 \/ m = 5 \/ m = 6 \/ m = 7
          \/ m = 8 \/ m = 9)%N as Hm by lia.
  repeat destruct Hm as [->|Hm]; try subst m; reflexivity.
Qed.

Lemma digits_pretty_go (x : N) (s : string) :
  (0 < x)%N -> digits 10 None (pretty_N_go x s) = digits 10 (Some x) s.
Proof.
  revert s. induction (N.lt_wf_0 x) as [x _ IH]; intros s Hx.
  rewrite pretty_N_go_step by done.
  assert (Hmod : (x `mod` 10 < 10)%N) by (apply N.mod_lt; lia).
  destruct (decide (x `div` 10 = 0)%N) as [Hd|Hd].
  - rewrite Hd, pretty_N_go_0. simpl. rewrite (digit_value_pretty _ Hmod).
    simpl. do 2 f_equal. rewrite (N.div_mod x 10) at 2 by lia. lia.
  - rewrite IH by first [apply N.div_lt; lia | by apply N.neq_0_lt_0]. simpl.
    rewrite (digit_value_pretty _ Hmod). simpl.
    do 2 f_equal. rewrite (N.div_mod x 10) at 3 by lia. lia.
Qed.

Lemma pretty_go_app (x : N) (s rest : string) :
  pretty_N_go x s +:+ rest = pretty_N_go x (s +:+ rest).
Proof.
  revert s. induction (N.lt_wf_0 x) as [x _ IH]; intros s.
  destruct (decide (x = 0)%N) as [->|Hx]; [by rewrite !pretty_N_go_0|].
  rewrite (pretty_N_go_step x s), (pretty_N_go_step x (s +:+ rest)) by lia.
  rewrite IH by (apply N.div_lt; lia). reflexivity.
Qed.

(** The numeral of a positive number starts with a digit from 1 to 9. *)
Lemma pretty_go_head (x : N) (s : string) :
  (0 < x)%N ->
  exists d r, (1 <= d <= 9)%N /\ pretty_N_go x s = String (pretty_N_char d) r.
Proof.
  revert s. induction (N.lt_wf_0 x) as [x _ IH]; intros s Hx.
  rewrite pretty_N_go_step by done.
  destruct (decide (x `div` 10 = 0)%N) as [Hd|Hd].
  - rewrite Hd, pretty_N_go_0. exists (x `mod` 10)%N, s. split; [|done].
    assert (x < 10)%N by (apply N.div_small_iff; lia).
    rewrite N.mod_small by done. lia.
  - apply IH; [apply N.div_lt; lia|by apply N.neq_0_lt_0].
Qed.

Lemma digits_stop (n : N) (rest : string) :
  rest = EmptyString \/
    (exists c r, rest = String c r /\ digit_value 10 c = None) ->
  digits 10 (Some n) rest = Some n.
Proof. intros [->|(c & r & -> & H)]; simpl; [done|by rewrite H]. Qed.

Lemma pretty_char_plain (d : N) :
  (1 <= d <= 9)%N ->
  is_space (pretty_N_char d) = false /\ pretty_N_char d <> "-"%char /\
  pretty_N_char d <> "+"%char /\ pretty_N_char d <> "0"%char.
Proof.
  intros H.
  assert (d = 1 \/ d = 2 \/ d = 3 \/ d = 4 \/ d = 5 \/ d = 6 \/ d = 7
          \/ d = 8 \/ d = 9)%N as Hd by lia.
  repeat destruct Hd as [->|Hd]; try subst d; by repeat split.
Qed.

Lemma parseInt_trim (ws x : string) :
  trim_start ws = EmptyString -> parseInt (ws +:+ x) = parseInt x.
Proof. intros H. unfold parseInt. by rewrite trim_start_app. Qed.

Lemma parseInt_numeral (ws rest : string) (n : N) :
  trim_start ws = EmptyString ->
  (0 < n)%N ->
  rest = EmptyString \/
    (exists c r, rest = String c r /\ digit_value 10 c = None) ->
  parseInt (ws +:+ pretty n +:+ rest) = Some (Z.of_N n) /\
  parseInt (ws +:+ "-" +:+ pretty n +:+ rest) = Some (- Z.of_N n)%Z.
Proof.
  intros Hws Hn Hrest. unfold pretty, pretty_N.
  destruct (decide (n = 0)%N) as [->|_]; [lia|].
  rewrite pretty_go_app. change (EmptyString +:+ rest) with rest.
  destruct (pretty_go_head n rest Hn) as (d & r & Hd & Hhead).
  destruct (pretty_char_plain d Hd) as (Hsp & Hm & Hp & Hz).
  assert (Hdigits : digits 10 None (String (pretty_N_char d) r) = Some n).
  { rewrite <- Hhead, digits_pretty_go by done. by apply digits_stop. }
  rewrite !parseInt_trim by done. rewrite Hhead. split.
  - by rewrite parseInt_plain, Hdigits.
  - change ("-" +:+ String (pretty_N_char d) r)
      with (String "-" (String (pretty_N_char d) r)).
    by rewrite parseInt_minus, Hdigits.
Qed.


(** X17: a port written as the decimal numeral of a positive number up
    to 2^53 (where the number read is a double without rounding) is read
    back as that number, after any leading white space and whatever
    follows the digits; with a minus sign in front it is read as the
    negative number. The range of ports is not checked: a number above
    65535 and a negative one are taken as they are. *)
Theorem PORT_reads_numeral (ws rest : string) (n : N) :
  trim_start ws = EmptyString ->
  (0 < n)%N ->
  (n <= 2 ^ 53)%N ->
  rest = EmptyString \/
    (exists c r, rest = String c r /\ digit_value 10 c = None) ->
  Index.PORT (Some (ws +:+ pretty n +:+ rest)) = Z.of_N n /\
  Index.PORT (Some (ws +:+ "-" +:+ pretty n +:+ rest)) = (- Z.of_N n)%Z.
Proof.
  intros Hws Hn _ Hrest.
  destruct (parseInt_numeral ws rest n Hws Hn Hrest) as [H1 H2].
  unfold Index.PORT. simpl. rewrite H1, H2.
  split; case_bool_decide; lia.
Qed.
End Port.

(** * The client *)

Section ClientProperties.
Import Client.
Context {num : Type} `{Numbers num}.

Lemma fetchProducts_products (res : FetchResult num) (st : State num) :
  products (fetchProducts res st) = default [] (delivered res).
Proof.
  destruct res as [err|status [err|msg [ps|]]]; simpl; try done;
    destruct (ok status); done.
Qed.

Lemma fetchProducts_frame (res : FetchResult num) (st : State num) :
  isEditing (fetchProducts res st) = isEditing st /\
  currentProduct (fetchProducts res st) = currentProduct st /\
  formData (fetchProducts res st) = formData st /\
  openDialog (fetchProducts res st) = openDialog st.
Proof.
  destruct res as [err|status [err|msg [ps|]]]; simpl; try done;
    destruct (ok status); done.
Qed.

Lemma handleSubmit_mode (res refetch : FetchResult num) (st : State num) :
  isEditing (fst (handleSubmit res refetch st)) = isEditing st /\
  currentProduct (fst (handleSubmit res refetch st)) = currentProduct st.
Proof.
  unfold handleSubmit.
  destruct (_ || _); [done|].
  destruct res as [err|status json]; [done|].
  destruct (negb (ok status)); [done|].
  destruct (fetchProducts_frame refetch (setIsLoading true st)) as (He & Hc & _).
  remember (fetchProducts refetch (setIsLoading true st)) as st'.
  simpl in *. by rewrite He, Hc.
Qed.

Lemma form_events_mode (evs : list FormEvent) (st : State num) :
  isEditing (form_events evs st) = isEditing st /\
  currentProduct (form_events evs st) = currentProduct st.
Proof.
  revert st. induction evs as [|ev evs IH]; intros st; [done|].
  unfold form_events in *. simpl. destruct (IH (form_event ev st)) as [-> ->].
  destruct ev as [field value|files]; simpl.
  - by destruct field.
  - unfold handleImageChange. destruct (files ≫= head) as [file|]; [|done].
    destruct (bool_decide _); [done|]. by destruct (negb _).
Qed.

Lemma submission_first (res refetch : FetchResult num) (st : State num) :
  valid_form st = true ->
  head (snd (handleSubmit res refetch st)) = Some (submission st).
Proof.
  unfold valid_form, handleSubmit.
  intros [[Hn Hd]%andb_true_iff Hp%negb_true_iff]%andb_true_iff.
  rewrite Hn, Hd, Hp. simpl.
  destruct res as [err|status json]; [done|]. by destruct (negb (ok status)).
Qed.

(** X18: a form with a blank name, a blank description or a price that is
    not above 0 is not sent: no request is issued, the message "Please fill
    all required fields with valid values" is shown as an error, and the
    form, the dialog and the list stay as they were. *)
Theorem submit_invalid_form (res refetch : FetchResult num) (st : State num) :
  valid_form st = false ->
  let r := handleSubmit res refetch st in
  snd r = [] /\
  snackbar (fst r)
  = {| open := true;
       message := "Please fill all required fields with valid values";
       severity := error |} /\
  formData (fst r) = formData st /\ openDialog (fst r) = openDialog st /\
  products (fst r) = products st /\ isLoading (fst r) = false.
Proof.
  unfold valid_form, handleSubmit. intros Hv.
  assert (negb (nonempty (trim (name (formData st))))
          || negb (nonempty (trim (description (formData st))))
          || le_zero (price (formData st)) = true) as ->; [|done].
  destruct (nonempty (trim (name (formData st)))),
    (nonempty (trim (description (formData st)))),
    (le_zero (price (formData st))); done.
Qed.

(** X19: whatever [handleSubmit] sends for a form has a name and a
    description that are not empty, and the price of the form, which is
    above 0, written by [toString]: the checks that the router does not
    make are made here. *)
Theorem submitted_forms_are_valid (res refetch : FetchResult num)
  (st : State num) (call : HttpCall) :
  call ∈ snd (handleSubmit res refetch st) ->
  method call <> GET ->
  exists b, body call = Some b /\
    form_name b <> EmptyString /\ form_description b <> EmptyString /\
    form_price b = toString (price (formData st)) /\
    le_zero (price (formData st)) = false.
Proof.
  unfold handleSubmit.
  destruct (nonempty (trim (name (formData st)))) eqn:Hn; simpl;
    [|by intros ?%elem_of_nil].
  destruct (nonempty (trim (description (formData st)))) eqn:Hd; simpl;
    [|by intros ?%elem_of_nil].
  destruct (le_zero (price (formData st))) eqn:Hp; simpl;
    [by intros ?%elem_of_nil|].
  assert (Hsub : call = submission st ->
                 exists b, body call = Some b /\ form_name b <> EmptyString /\
                   form_description b <> EmptyString /\
                   form_price b = toString (price (formData st)) /\ false = false).
  { intros ->. eexists. split; [reflexivity|]. simpl.
    split; [by destruct (trim (name (formData st)))|].
    split; [by destruct (trim (description (formData st)))|done]. }
  destruct res as [err|status json]; simpl.
  - intros ->%list_elem_of_singleton _. by apply Hsub.
  - destruct (negb (ok status)); simpl.
    + intros ->%list_elem_of_singleton _. by apply Hsub.
    + intros [->|[->|[]%elem_of_nil]%elem_of_cons]%elem_of_cons Hm;
        [by apply Hsub|done].
Qed.

(** X20: the edit mode outlives a successful Update. After an edit of a
    product was submitted and answered with a 2xx status, the dialog is
    closed and the form is cleared, but [isEditing] and [currentProduct]
    stay; a form filled in after "Add Product" is then sent as a PUT to
    the product that was edited. Only [handleCloseDialog] leaves the edit
    mode: after it the same form is sent as a POST to the collection. *)
Theorem add_after_edit_is_an_update (p : Product num) (id : string)
  (evs evs' : list FormEvent) (status : N) (json : Json num)
  (refetch res' refetch' : FetchResult num) (st : State num) :
  _id p = Some id ->
  nonempty id = true ->
  ok status = true ->
  let st1 := form_events evs (handleEdit p st) in
  let st2 := fst (handleSubmit (Response status json) refetch st1) in
  let st3 := form_events evs' (openAddDialog st2) in
  let st4 := form_events evs' (openAddDialog (handleCloseDialog st2)) in
  valid_form st1 = true ->
  valid_form st3 = true ->
  valid_form st4 = true ->
  openDialog st2 = false /\ formData st2 = initialFormData /\
  (exists b, head (snd (handleSubmit res' refetch' st3))
             = Some {| method := PUT;
                       target := API_BASE_URL +:+ "/products/" +:+ id;
                       body := Some b |}) /\
  (exists b, head (snd (handleSubmit res' refetch' st4))
             = Some {| method := POST;
                       target := API_BASE_URL +:+ "/products";
                       body := Some b |}).
Proof.
  intros Hid Hne Hok st1 st2 st3 st4 Hv1 Hv3 Hv4.
  assert (Hm1 : isEditing st1 = true /\ currentProduct st1 = Some p).
  { subst st1. by destruct (form_events_mode evs (handleEdit p st)) as [-> ->]. }
  assert (Hm2 : isEditing st2 = true /\ currentProduct st2 = Some p).
  { subst st2.
    destruct (handleSubmit_mode (Response status json) refetch st1) as [-> ->].
    exact Hm1. }
  assert (Hclosed : openDialog st2 = false /\ formData st2 = initialFormData).
  { subst st2. unfold handleSubmit. unfold valid_form in Hv1.
    apply andb_true_iff in Hv1 as [[Hn Hd]%andb_true_iff Hp%negb_true_iff].
    rewrite Hn, Hd, Hp, Hok. done. }
  destruct Hclosed as [Hclosed Hform]. split; [done|]. split; [done|]. split.
  - rewrite (submission_first res' refetch' st3 Hv3). unfold submission.
    subst st3.
    destruct (form_events_mode evs' (openAddDialog st2)) as [-> ->].
    simpl. destruct Hm2 as [-> ->]. simpl. rewrite Hid.
    destruct id as [|c r]; [done|]. by eexists.
  - rewrite (submission_first res' refetch' st4 Hv4). unfold submission.
    subst st4.
    destruct (form_events_mode evs' (openAddDialog (handleCloseDialog st2)))
      as [-> ->].
    simpl. by eexists.
Qed.

(** X21: the listing request replaces the list by the products of a 2xx
    answer that has them, without a notification; any other answer (no
    connection, another status, a body that does not parse or has no
    products) empties the list and shows an error that starts with "Failed
    to fetch products: ". The loading indicator is cleared either way. *)
Theorem fetchProducts_replaces_or_empties (res : FetchResult num)
  (st : State num) :
  let st' := fetchProducts res st in
  isLoading st' = false /\
  match delivered res with
  | Some ps => products st' = ps /\ snackbar st' = snackbar st
  | None =>
      products st' = [] /\ open (snackbar st') = true /\
      severity (snackbar st') = error /\
      exists reason,
        message (snackbar st') = "Failed to fetch products: " +:+ reason
  end.
Proof.
  destruct res as [err|status [err|msg [ps|]]]; simpl;
    try destruct (ok status); simpl; (split; [done|]);
    try done; repeat (split; [done|]); by eexists.
Qed.

(** X22: when the request of a valid form was answered with a 2xx status,
    the notification is the success message, the dialog is closed and the
    form is cleared, whatever became of the listing that follows: if that
    one failed, its error is replaced by the success message and the list
    is empty. *)
Theorem submit_success_hides_listing_failure (status : N) (json : Json num)
  (refetch : FetchResult num) (st : State num) :
  valid_form st = true ->
  ok status = true ->
  let r := handleSubmit (Response status json) refetch st in
  snackbar (fst r)
  = {| open := true;
       message := if isEditing st then "Product updated successfully"
                  else "Product added successfully";
       severity := success |} /\
  products (fst r) = default [] (delivered refetch) /\
  openDialog (fst r) = false /\ formData (fst r) = initialFormData /\
  isLoading (fst r) = false.
Proof.
  unfold valid_form, handleSubmit.
  intros [[Hn Hd]%andb_true_iff Hp%negb_true_iff]%andb_true_iff Hok.
  rewrite Hn, Hd, Hp, Hok.
  pose proof (fetchProducts_products refetch (setIsLoading true st)) as Hps.
  remember (fetchProducts refetch (setIsLoading true st)) as st'.
  simpl in *. by rewrite Hps.
Qed.

(** X23: choosing an image. The first chosen file goes into the form when
    it has at most 5242880 bytes and a type that starts with "image/";
    otherwise an error is shown and the image chosen before, if any, stays
    in the form. Nothing else of the form or of the state changes, and
    without a file nothing changes at all. *)
Theorem image_choice (files : option (list BrowserFile)) (st : State num) :
  let st' := handleImageChange files st in
  (products st' = products st /\ isLoading st' = isLoading st /\
   openDialog st' = openDialog st /\ isEditing st' = isEditing st /\
   currentProduct st' = currentProduct st) /\
  (name (formData st') = name (formData st) /\
   description (formData st') = description (formData st) /\
   price (formData st') = price (formData st) /\
   imageUrl (formData st') = imageUrl (formData st)) /\
  match files ≫= head with
  | None => st' = st
  | Some file =>
      if acceptable file
      then image (formData st') = Some file /\ snackbar st' = snackbar st
      else image (formData st') = image (formData st) /\
           open (snackbar st') = true /\ severity (snackbar st') = error
  end.
Proof.
  unfold handleImageChange, acceptable.
  destruct (files ≫= head) as [file|]; [|done].
  repeat case_bool_decide; try lia; simpl; [done|].
  by destruct (String.prefix "image/" (type file)).
Qed.

(** X24: the delete button. A deletion that was not confirmed sends
    nothing and changes nothing. A confirmed one sends the DELETE for the
    id; a 2xx answer is followed by the listing request and the success
    message, any other answer leaves the list as it was, sends no listing
    request and shows the failure with the status. *)
Theorem delete_click (id : string) (confirmed : bool)
  (res refetch : FetchResult num) (st : State num) :
  let r := handleDelete id confirmed res refetch st in
  let deletion :=
    {| method := DELETE; target := API_BASE_URL +:+ "/products/" +:+ id;
       body := None |} in
  let listing :=
    {| method := GET; target := API_BASE_URL +:+ "/products"; body := None |} in
  (confirmed = false -> r = (st, [])) /\
  (confirmed = true ->
   isLoading (fst r) = false /\
   match res with
   | Rejected err =>
       snd r = [deletion] /\ products (fst r) = products st /\
       snackbar (fst r)
       = {| open := true; message := default "Failed to delete product" err;
            severity := error |}
   | Response status _ =>
       if ok status
       then snd r = [deletion; listing] /\
            products (fst r) = default [] (delivered refetch) /\
            snackbar (fst r)
            = {| open := true; message := "Product deleted successfully";
                 severity := success |}
       else snd r = [deletion] /\ products (fst r) = products st /\
            snackbar (fst r)
            = {| open := true;
                 message := "Delete failed with status " +:+ pretty status;
                 severity := error |}
   end).
Proof.
  unfold handleDelete. destruct confirmed; simpl; (split; [done|]);
    intros Hc; [|done].
  destruct res as [err|status json]; [done|].
  destruct (ok status); [|done].
  pose proof (fetchProducts_products refetch (setIsLoading true st)) as Hps.
  remember (fetchProducts refetch (setIsLoading true st)) as st'.
  simpl in *. by rewrite Hps.
Qed.
End ClientProperties.

(** * The further properties at work on the samples *)

Lemma plain_update_keeps_old_asset_witness :
  issued_by Sample.shop (snd (Basic.update Sample.up (Sample.rephoto "p1") Sample.shop))
  = [MediaUpload Sample.photo;
     UpdateProduct "p1"
       (submitted (Sample.rephoto "p1")
          (Some "https://res.cloudinary.com/demo/image/upload/v2/store-products/mug2.png"))].
Proof.
  exact (proj1 (plain_update_keeps_old_asset Sample.up (Sample.rephoto "p1")
                  Sample.shop Sample.mug Sample.photo
                  eq_refl eq_refl eq_refl eq_refl)).
Defined.

Lemma create_failure_leaves_asset_witness :
  fst (Catalog.create Faults.writes_down (Sample.rephoto "") Sample.shop)
  = {| status := 500; json := JsonMessage "Error creating product" |}.
Proof.
  exact (proj1 (create_failure_leaves_asset Faults.writes_down (Sample.rephoto "")
                  Sample.shop Sample.photo eq_refl eq_refl eq_refl eq_refl)).
Defined.

Lemma upload_failure_stops_request_witness :
  fst (Catalog.create Sample.up
         (Sample.request "" (Some "Mug") (Some "Ceramic mug") (Some "9.99")
            (Some Faults.clip)) Sample.shop)
  = {| status := 500; json := ErrorPage |}.
Proof.
  exact (proj1 (proj1 (upload_failure_stops_request Sample.up
                  (Sample.request "" (Some "Mug") (Some "Ceramic mug")
                     (Some "9.99") (Some Faults.clip))
                  Sample.shop Faults.clip eq_refl (or_introl eq_refl)))).
Defined.

Lemma create_then_delete_witness :
  filter is_media
    (issued_by (snd (Catalog.create Sample.up (Sample.rephoto "") Sample.shop))
       (snd (Catalog.delete Sample.up (Sample.reprice "0")
               (snd (Catalog.create Sample.up (Sample.rephoto "") Sample.shop)))))
  = [MediaDestroy "store-products/mug2"].
Proof.
  exact (proj2 (create_then_delete Sample.up Sample.up (Sample.rephoto "")
                  (Sample.reprice "0") Sample.shop Sample.photo
                  eq_refl eq_refl eq_refl eq_refl eq_refl eq_refl
                  ltac:(vm_compute; reflexivity) eq_refl)).
Defined.

Lemma update_then_delete_witness :
  filter is_media
    (issued_by (snd (Catalog.update Sample.up (Sample.rephoto "p1") Sample.shop))
       (snd (Catalog.delete Sample.up (Sample.reprice "p1")
               (snd (Catalog.update Sample.up (Sample.rephoto "p1") Sample.shop)))))
  = [MediaDestroy "store-products/mug2"].
Proof.
  exact (update_then_delete Sample.up Sample.up (Sample.rephoto "p1")
           (Sample.reprice "p1") Sample.shop Sample.mug Sample.mug_url
           Sample.photo
           eq_refl eq_refl eq_refl eq_refl eq_refl eq_refl eq_refl eq_refl
           eq_refl eq_refl eq_refl eq_refl eq_refl).
Defined.

Lemma late_failure_leaves_dangling_url_witness :
  status (fst (Catalog.delete Faults.writes_down (Sample.reprice "p1") Sample.shop))
  = 500 /\
  db (snd (Catalog.delete Faults.writes_down (Sample.reprice "p1") Sample.shop))
    !! "p1" = Some Sample.mug.
Proof.
  pose proof (late_failure_leaves_dangling_url Faults.writes_down Sample.shop
                Sample.mug Sample.mug_url (Sample.reprice "p1")
                (Sample.rephoto "p1") Sample.photo
                eq_refl eq_refl eq_refl eq_refl eq_refl eq_refl eq_refl eq_refl
                eq_refl eq_refl eq_refl) as [(H1 & _ & H2) _].
  split; [exact H1|exact H2].
Defined.

Lemma update_first_image_witness :
  filter is_media
    (issued_by Sample.bare_shop
       (snd (Catalog.update Sample.up (Sample.rephoto "p2") Sample.bare_shop)))
  = [MediaUpload Sample.photo].
Proof.
  exact (proj1 (update_first_image Sample.up (Sample.rephoto "p2")
                  Sample.bare_shop Sample.bare Sample.photo
                  eq_refl eq_refl eq_refl eq_refl eq_refl eq_refl)).
Defined.

Lemma delete_twice_witness :
  fst (Catalog.delete Sample.up (Sample.reprice "p1")
         (snd (Catalog.delete Sample.up (Sample.reprice "p1") Sample.shop)))
  = {| status := 404; json := JsonMessage "Product not found" |}.
Proof.
  exact (proj1 (delete_twice Sample.up Sample.up (Sample.reprice "p1")
                  Sample.shop ltac:(vm_compute; reflexivity) eq_refl)).
Defined.

Lemma list_is_read_only_witness :
  status (fst (Catalog.list_all Sample.up Sample.shop)) = 200.
Proof.
  pose proof (list_is_read_only Sample.up Sample.shop) as (_ & _ & _ & H).
  exact (proj1 (H eq_refl)).
Defined.

Lemma plain_delete_is_blind_witness :
  fst (Basic.delete Sample.up (Sample.reprice "nope") Sample.shop)
  = {| status := 200; json := JsonResult "Product deleted" Acknowledged |}.
Proof.
  pose proof (plain_delete_is_blind Sample.up (Sample.reprice "nope") Sample.shop)
    as (_ & H & _).
  exact (proj1 (H eq_refl)).
Defined.

Lemma failure_changes_nothing_witness :
  db (snd (serve Faults.writes_down (DELETE (Sample.reprice "p1")) Sample.shop))
  = db Sample.shop.
Proof.
  pose proof (failure_changes_nothing Faults.writes_down
                (DELETE (Sample.reprice "p1")) Sample.shop) as [[H _] _].
  apply H; vm_compute; discriminate.
Defined.


Lemma PORT_reads_numeral_witness :
  Index.PORT (Some " 8080/tcp") = 8080%Z /\
  Index.PORT (Some " -8080/tcp") = (-8080)%Z.
Proof.
  apply (PORT_reads_numeral " " "/tcp" 8080);
    [reflexivity|reflexivity|discriminate|].
  right. exists "/"%char, "tcp". split; reflexivity.
Defined.

Section ClientWitnesses.
Import Client.
#[local] Existing Instance ClientSample.integers.

Lemma submit_invalid_form_witness :
  snd (handleSubmit ClientSample.done_ ClientSample.listed_mug ClientSample.blank) = [].
Proof.
  exact (proj1 (submit_invalid_form ClientSample.done_ ClientSample.listed_mug
                  ClientSample.blank eq_refl)).
Defined.

Lemma submitted_forms_are_valid_witness :
  exists b,
    body (submission (form_events ClientSample.filling ClientSample.blank)) = Some b /\
    form_name b <> EmptyString.
Proof.
  assert (Hin : submission (form_events ClientSample.filling ClientSample.blank)
                 ∈ snd (handleSubmit ClientSample.done_ ClientSample.listed_mug
                          (form_events ClientSample.filling ClientSample.blank)))
    by (vm_compute; apply list_elem_of_here).
  assert (Hm : method (submission
                         (form_events ClientSample.filling ClientSample.blank))
               <> GET) by (vm_compute; discriminate).
  destruct (submitted_forms_are_valid _ _ _ _ Hin Hm) as (b & Hb & Hn & _).
  exists b. split; [exact Hb|exact Hn].
Defined.

Lemma add_after_edit_is_an_update_witness :
  exists b,
    head (snd (handleSubmit ClientSample.done_ ClientSample.listed_mug
                 (form_events ClientSample.filling
                    (openAddDialog
                       (fst (handleSubmit ClientSample.done_
                               ClientSample.listed_mug
                               (handleEdit ClientSample.mug initialState)))))))
    = Some {| method := PUT; target := "http://127.0.0.1:8080/products/p1";
              body := Some b |}.
Proof.
  exact (proj1 (proj2 (proj2
    (add_after_edit_is_an_update ClientSample.mug "p1" [] ClientSample.filling 200
       (Object (Some "Product updated") None)
       ClientSample.listed_mug ClientSample.done_ ClientSample.listed_mug
       initialState eq_refl eq_refl eq_refl eq_refl eq_refl eq_refl)))).
Defined.

Lemma submit_success_hides_listing_failure_witness :
  message (snackbar (fst (handleSubmit ClientSample.done_ ClientSample.offline
                            (form_events ClientSample.filling ClientSample.blank))))
  = "Product added successfully" /\
  products (fst (handleSubmit ClientSample.done_ ClientSample.offline
                   (form_events ClientSample.filling ClientSample.blank))) = [].
Proof.
  pose proof (submit_success_hides_listing_failure 200
                (Object (Some "Product updated") None) ClientSample.offline
                (form_events ClientSample.filling ClientSample.blank) eq_refl eq_refl) as (H1 & H2 & _).
  split; [exact (f_equal message H1)|exact H2].
Defined.

Lemma delete_click_witness :
  snd (handleDelete "p1" true ClientSample.refused ClientSample.listed_mug
         (fetchProducts ClientSample.listed_mug initialState))
  = [{| method := DELETE; target := "http://127.0.0.1:8080/products/p1";
        body := None |}].
Proof.
  pose proof (delete_click "p1" true ClientSample.refused ClientSample.listed_mug
                (fetchProducts ClientSample.listed_mug initialState))
    as (_ & H1).
  exact (proj1 (proj2 (H1 eq_refl))).
Defined.
End ClientWitnesses.
